(** * mbot-rest: leaderboard REST API and leaderboard merge tool

    A shallow embedding of [restapi.py] and [tools/update_leaderboard.py]
    together with the properties their specification states about them.

    Python text is modelled as [string] (8-bit characters, so the model
    covers ASCII text), Python dictionaries loaded from JSON as [gmap]s with
    string keys, exceptions as an explicit result type, and the file system
    as a finite map from paths to file contents. *)

From Stdlib Require Import ZArith String Ascii List Lia.
From Stdlib Require Import Floats.SpecFloat.
From stdpp Require Import gmap strings list fin_maps sorting pretty.

Set Warnings "-register-all".

(** ** Python values, exceptions and files *)

Module Py.

(** The values [json.load] produces. *)
Inductive value :=
| VNone
| VBool (b : bool)
| VInt (z : Z)
| VFloat (f : spec_float)
| VStr (s : string)
| VList (l : list value)
| VDict (m : gmap string value).

(** The exceptions the two programs can meet. [InvalidUsage] is the
    class defined in [restapi.py]; its [status_code] defaults to 400. *)
Inductive exn :=
| ValueError
| TypeError
| KeyError
| AttributeError
| FileNotFoundError
| JSONDecodeError
| InvalidUsage (message : string) (status_code : Z).

Inductive result (A : Type) :=
| Ok (a : A)
| Raise (e : exn).
Arguments Ok {A} a.
Arguments Raise {A} e.

#[global] Instance result_ret : MRet result := fun _ a => Ok a.
#[global] Instance result_bind : MBind result := fun _ _ k m =>
  match m with
  | Ok a => k a
  | Raise e => Raise e
  end.

(** What [json.load] makes of a file: a document denoting a value, or
    text that is not valid JSON. *)
Inductive contents :=
| Json (v : value)
| NotJson.

Notation filesystem := (gmap string contents).

(** [with open(fname, 'r') as f: json.load(f)] *)
Definition load_json (fs : filesystem) (fname : string) : result value :=
  match fs !! fname with
  | None => Raise FileNotFoundError
  | Some NotJson => Raise JSONDecodeError
  | Some (Json v) => Ok v
  end.

(** [v[key]] for a string [key]. *)
Definition getitem (v : value) (key : string) : result value :=
  match v with
  | VDict m =>
      match m !! key with
      | Some x => Ok x
      | None => Raise KeyError
      end
  | _ => Raise TypeError
  end.

Fixpoint chars (s : string) : list string :=
  match s with
  | EmptyString => []
  | String c s' => String c EmptyString :: chars s'
  end.

(** [for x in v]. A dictionary yields its keys; the insertion order of a
    dictionary is not tracked, and no loop below depends on it. *)
Definition iter (v : value) : result (list value) :=
  match v with
  | VList l => Ok l
  | VDict m => Ok (VStr <$> (map_to_list m).*1)
  | VStr s => Ok (VStr <$> chars s)
  | _ => Raise TypeError
  end.

End Py.
Export Py.

(** ** [datetime.datetime] *)

Module Datetime.
Local Open Scope Z_scope.

Record datetime := mk_datetime {
  year : Z; month : Z; day : Z; hour : Z; minute : Z; second : Z
}.

Definition is_leap (y : Z) : bool :=
  (y mod 4 =? 0) && (negb (y mod 100 =? 0) || (y mod 400 =? 0)).

Definition month_lengths : list Z :=
  [31; 28; 31; 30; 31; 30; 31; 31; 30; 31; 30; 31].

Definition days_in_month (y m : Z) : Z :=
  if (m =? 2) && is_leap y then 29
  else nth (Z.to_nat (m - 1)) month_lengths 0.

Definition days_before_year (y : Z) : Z :=
  let p := y - 1 in p * 365 + p / 4 - p / 100 + p / 400.

Definition days_before_month (y m : Z) : Z :=
  fold_right Z.add 0 (firstn (Z.to_nat (m - 1)) month_lengths)
  + (if (2 <? m) && is_leap y then 1 else 0).

Definition ymd2ord (y m d : Z) : Z :=
  days_before_year y + days_before_month y m + d.

(** The constructor rejects out-of-range fields with ValueError. *)
Definition datetime_new (y m d hh mm ss : Z) : result datetime :=
  if (1 <=? y) && (y <=? 9999) && (1 <=? m) && (m <=? 12)
     && (1 <=? d) && (d <=? days_in_month y m)
     && (0 <=? hh) && (hh <=? 23) && (0 <=? mm) && (mm <=? 59)
     && (0 <=? ss) && (ss <=? 59)
  then Ok (mk_datetime y m d hh mm ss)
  else Raise ValueError.

Definition toordinal (t : datetime) : Z := ymd2ord (year t) (month t) (day t).

Definition fields (t : datetime) : list Z :=
  [year t; month t; day t; hour t; minute t; second t].

Fixpoint cmp_fields (a b : list Z) : comparison :=
  match a, b with
  | [], [] => Eq
  | [], _ :: _ => Lt
  | _ :: _, [] => Gt
  | x :: a', y :: b' =>
      match x ?= y with
      | Eq => cmp_fields a' b'
      | c => c
      end
  end.

(** Comparison of two datetimes is the comparison of their field tuples. *)
Definition cmp (a b : datetime) : comparison := cmp_fields (fields a) (fields b).

Definition leb (a b : datetime) : bool :=
  match cmp a b with Gt => false | _ => true end.
Definition ltb (a b : datetime) : bool :=
  match cmp a b with Lt => true | _ => false end.

(** [a - b], a timedelta, kept as its total number of seconds (the
    comparison and [abs] of normalised timedeltas are those of that
    number). *)
Definition sub (a b : datetime) : Z :=
  (toordinal a - toordinal b) * 86400
  + ((hour a * 3600 + minute a * 60 + second a)
     - (hour b * 3600 + minute b * 60 + second b)).

End Datetime.
Export Datetime (datetime, mk_datetime).

(** ** [datetime.datetime.strptime]

    The library turns a format into a regular expression, matches it at
    the start of the text ignoring case, rejects text left over after the
    match, and builds the datetime from the named groups. Digits are the
    ASCII digits. *)

Module Strptime.

Inductive re :=
| Chr (c : ascii)                 (* a literal character *)
| Digit                           (* \d *)
| Rng (lo hi : ascii)             (* [lo-hi] *)
| Cat (r1 r2 : re)
| Alt (r1 r2 : re)
| Grp (name : string) (r : re)    (* (?P<name>r) *)
| Eps.

Definition lower (c : ascii) : ascii :=
  let n := N_of_ascii c in
  if ((65 <=? n) && (n <=? 90))%N then ascii_of_N (n + 32) else c.

Definition in_range (lo hi c : ascii) : bool :=
  ((N_of_ascii lo <=? N_of_ascii c) && (N_of_ascii c <=? N_of_ascii hi))%N.

Definition is_digit (c : ascii) : bool := in_range "0" "9" c.

(** All the ways [r] matches a prefix of [s], in the order a backtracking
    matcher tries them: the matched text, the groups and the rest. *)
Fixpoint rmatch (r : re) (s : string)
  : list (string * list (string * string) * string) :=
  match r with
  | Chr c =>
      match s with
      | String a s' =>
          if Ascii.eqb (lower a) (lower c) then [(String a "", [], s')] else []
      | EmptyString => []
      end
  | Digit =>
      match s with
      | String a s' => if is_digit a then [(String a "", [], s')] else []
      | EmptyString => []
      end
  | Rng lo hi =>
      match s with
      | String a s' => if in_range lo hi a then [(String a "", [], s')] else []
      | EmptyString => []
      end
  | Cat r1 r2 =>
      '(c1, g1, s1) ← rmatch r1 s;
      '(c2, g2, s2) ← rmatch r2 s1;
      [(c1 +:+ c2, g1 ++ g2, s2)]
  | Alt r1 r2 => rmatch r1 s ++ rmatch r2 s
  | Grp name r1 =>
      (fun '(c, g, s') => (c, (name, c) :: g, s')) <$> rmatch r1 s
  | Eps => [("", [], s)]
  end.

Definition seq_re (rs : list re) : re := foldr Cat Eps rs.

(** The regular expressions of the directives used by the formats. *)
Definition directive (d : ascii) : option re :=
  match d with
  | "Y"%char => Some (Grp "Y" (seq_re [Digit; Digit; Digit; Digit]))
  | "m"%char =>
      Some (Grp "m" (Alt (Cat (Chr "1") (Rng "0" "2"))
                    (Alt (Cat (Chr "0") (Rng "1" "9")) (Rng "1" "9"))))
  | "d"%char =>
      Some (Grp "d" (Alt (Cat (Chr "3") (Rng "0" "1"))
                    (Alt (Cat (Rng "1" "2") Digit)
                    (Alt (Cat (Chr "0") (Rng "1" "9"))
                    (Alt (Rng "1" "9") (Cat (Chr " ") (Rng "1" "9")))))))
  | "H"%char =>
      Some (Grp "H" (Alt (Cat (Chr "2") (Rng "0" "3"))
                    (Alt (Cat (Rng "0" "1") Digit) Digit)))
  | "M"%char => Some (Grp "M" (Alt (Cat (Rng "0" "5") Digit) Digit))
  | "S"%char =>
      Some (Grp "S" (Alt (Cat (Chr "6") (Rng "0" "1"))
                    (Alt (Cat (Rng "0" "5") Digit) Digit)))
  | _ => None
  end.

(** The pieces of the regular expression of a format, left to right: a
    directive gives its expression, any other character stands for itself
    (the formats of [restapi.py] hold no blank, which the library would
    turn into a run of white space). *)
Fixpoint pattern (fmt : string) : option (list re) :=
  match fmt with
  | EmptyString => Some []
  | String "%" EmptyString => None
  | String "%" (String d rest) =>
      r ← directive d; p ← pattern rest; Some (r :: p)
  | String c rest => p ← pattern rest; Some (Chr c :: p)
  end.

Definition digit_val (c : ascii) : Z := Z.of_N (N_of_ascii c) - 48.

Fixpoint digits (acc : Z) (s : string) : option Z :=
  match s with
  | EmptyString => Some acc
  | String c s' =>
      if is_digit c then digits (acc * 10 + digit_val c)%Z s' else None
  end.

(** [int(text)] on the texts the groups can hold: decimal digits, after
    optional blanks. *)
Fixpoint py_int (s : string) : option Z :=
  match s with
  | EmptyString => None
  | String " " s' => py_int s'
  | String _ _ => digits 0 s
  end.

(** A group's number, or the default of a directive the format lacks. *)
Definition group (g : list (string * string)) (name : string) (default : Z)
  : result Z :=
  match (list_to_map g : gmap string string) !! name with
  | None => Ok default
  | Some txt =>
      match py_int txt with
      | Some z => Ok z
      | None => Raise ValueError
      end
  end.

Definition datetime_of_groups (g : list (string * string)) : result datetime :=
  y ← group g "Y" 1900; m ← group g "m" 1; d ← group g "d" 1;
  hh ← group g "H" 0; mm ← group g "M" 0; ss ← group g "S" 0;
  Datetime.datetime_new y m d hh mm ss.

(** The first match decides: no match, or text left after it, is a
    ValueError; text that is not a string is a TypeError. *)
Definition strptime (data : value) (fmt : string) : result datetime :=
  match data with
  | VStr s =>
      match pattern fmt with
      | None => Raise ValueError
      | Some rs =>
          match rmatch (seq_re rs) s with
          | [] => Raise ValueError
          | (_, g, EmptyString) :: _ => datetime_of_groups g
          | (_, _, String _ _) :: _ => Raise ValueError
          end
      end
  | _ => Raise TypeError
  end.

End Strptime.
Export Strptime (strptime).

(** ** restapi.py *)

Module RestApi.

Definition leaderboard_file : string := "data/leaderboard.json".
Definition weather_file : string := "data/station_observations.json".

Definition ts_formats : list string :=
  [ "%Y-%m-%dT%H:%M:%S+00:00";
    "%Y-%m-%dT%H:%M:%SZ";
    "%Y-%m-%dT%H:%M:%S" ].

(** The [for fmt in ts_formats] loop of [ts_parse]: the first format that
    [strptime] accepts ends the loop, any exception moves on to the next
    format, and the [else] branch of the loop returns [None]. *)
Fixpoint ts_parse_from (fmts : list string) (ts : value)
  : result (option datetime) :=
  match fmts with
  | [] => Ok None
  | fmt :: rest =>
      match strptime ts fmt with
      | Ok dt => Ok (Some dt)
      | Raise _ => ts_parse_from rest ts
      end
  end.

Definition ts_parse (ts : value) : result (option datetime) :=
  ts_parse_from ts_formats ts.

Definition read_json_dict (fs : filesystem) (fname : string) : result value :=
  load_json fs fname.

(** [abs(dt - dte)]; subtracting with [None] on either side is a TypeError. *)
Definition abs_diff (dt dte : option datetime) : result Z :=
  match dt, dte with
  | Some a, Some b => Ok (Z.abs (Datetime.sub a b))
  | _, _ => Raise TypeError
  end.

(** One turn of the loop of [weather_find] on the state
    [(nearest, weather)]. Both ways into the body of the [if] evaluate
    [abs(dt - dte)], so it is evaluated once here. *)
Definition weather_step (dt : option datetime) (st : option Z * value)
    (event : value) : result (option Z * value) :=
  props ← getitem event "properties";
  ts ← getitem props "timestamp";
  dte ← ts_parse ts;
  d ← abs_diff dt dte;
  match st.1 with
  | None => Ok (Some d, props)
  | Some nearest => if (d <? nearest)%Z then Ok (Some d, props) else Ok st
  end.

Fixpoint weather_loop (dt : option datetime) (st : option Z * value)
    (events : list value) : result (option Z * value) :=
  match events with
  | [] => Ok st
  | event :: rest => st' ← weather_step dt st event; weather_loop dt st' rest
  end.

Definition weather_find (dt : option datetime) (events : value) : result value :=
  features ← getitem events "features";
  l ← iter features;
  st ← weather_loop dt (None, VNone) l;
  Ok st.2.

(** [dt >= dt1 and dt <= dt2]; ordering [None] against a datetime is a
    TypeError. *)
Definition in_range (dt : option datetime) (dt1 dt2 : datetime) : result bool :=
  match dt with
  | Some t => Ok (Datetime.leb dt1 t && Datetime.leb t dt2)
  | None => Raise TypeError
  end.

(** [sorted(events)]: the keys of a dictionary in ascending order. Data
    that is not a dictionary makes the loop fail, except an empty sequence,
    over which it does not run. The failure is given as a TypeError; for a
    list whose first element, once sorted, is an integer outside the
    list's range, Python raises an IndexError instead, a kind of failure
    that is not told apart here. *)
Definition sorted_keys (events : value) : result (list string) :=
  match events with
  | VDict m => Ok (merge_sort String.le (map_to_list m).*1)
  | VList [] | VStr EmptyString => Ok []
  | _ => Raise TypeError
  end.

Fixpoint timerange_loop (events : value) (dt1 dt2 : datetime)
    (keys : list string) (retlist : list value) : result (list value) :=
  match keys with
  | [] => Ok retlist
  | event :: rest =>
      record ← getitem events event;
      sd ← getitem record "start_date";
      dt ← ts_parse sd;
      keep ← in_range dt dt1 dt2;
      timerange_loop events dt1 dt2 rest
        (if keep : bool then retlist ++ [record] else retlist)
  end.

Definition leaders_timerange (fs : filesystem) (ts1 ts2 : string)
  : result value :=
  dt1 ← ts_parse (VStr ts1);
  dt2 ← ts_parse (VStr ts2);
  match dt1, dt2 with
  | Some t1, Some t2 =>
      if Datetime.ltb t2 t1
      then Raise (InvalidUsage "Error parsing timestamp parameters" 400)
      else
        events ← read_json_dict fs leaderboard_file;
        keys ← sorted_keys events;
        retlist ← timerange_loop events t1 t2 keys [];
        Ok (VList retlist)
  | _, _ => Raise (InvalidUsage "Error parsing timestamp parameters" 400)
  end.

Definition weather_at_time (fs : filesystem) (ts : string) : result value :=
  dt ← ts_parse (VStr ts);
  match dt with
  | None => Raise (InvalidUsage "Error parsing timestamp parameter" 400)
  | Some _ =>
      events ← read_json_dict fs weather_file;
      weather_find dt events
  end.

(** What the client receives: the JSON body with status 200, the
    [handle_invalid_usage] answer for [InvalidUsage], and the framework's
    500 for any other exception. *)
Record response := mk_response { status : Z; body : value }.

Definition handle_invalid_usage (message : string) (status_code : Z) : response :=
  mk_response status_code (VDict {[ "message" := VStr message ]}).

Definition respond (r : result value) : response :=
  match r with
  | Ok v => mk_response 200 v
  | Raise (InvalidUsage message status_code) =>
      handle_invalid_usage message status_code
  | Raise _ => mk_response 500 VNone
  end.

End RestApi.

(** ** tools/update_leaderboard.py *)

Module UpdateLeaderboard.
Section Tool.

(** Python's [repr] of floats, lists and dictionaries, which [str] falls
    back on for those values. *)
Variable py_repr : value -> string.

Definition leaderboard_file : string := "leaderboard.json".

Definition unique_key_fields : list string :=
  String.words "start_date athlete_name rank".

(** [str(v)] *)
Definition str (v : value) : string :=
  match v with
  | VNone => "None"
  | VBool true => "True"
  | VBool false => "False"
  | VInt z => pretty z
  | VStr s => s
  | VFloat _ | VList _ | VDict _ => py_repr v
  end.

(** [d.get(key, default)]; only dictionaries have the method. *)
Definition get (d : value) (key : string) (default : value) : result value :=
  match d with
  | VDict m =>
      match m !! key with
      | Some x => Ok x
      | None => Ok default
      end
  | _ => Raise AttributeError
  end.

(** [sep.join(vals)] *)
Fixpoint join (sep : string) (vals : list string) : string :=
  match vals with
  | [] => ""
  | [v] => v
  | v :: rest => v +:+ sep +:+ join sep rest
  end.

Fixpoint composite_vals (d : value) (keys : list string) (vals : list string)
  : result (list string) :=
  match keys with
  | [] => Ok vals
  | key :: rest =>
      v ← get d key (VStr "");
      composite_vals d rest (vals ++ [str v])
  end.

Definition make_composite_key (d : value) (keys : list string) : result string :=
  vals ← composite_vals d keys [];
  Ok (join "+" vals).

(** [data[key] = entry] *)
Definition setitem (data : value) (key : string) (entry : value) : result value :=
  match data with
  | VDict m => Ok (VDict (<[key := entry]> m))
  | _ => Raise TypeError
  end.

(** [for entry in d['entries']: data[make_composite_key(...)] = entry] *)
Fixpoint merge_entries (data : value) (entries : list value) : result value :=
  match entries with
  | [] => Ok data
  | entry :: rest =>
      key ← make_composite_key entry unique_key_fields;
      data' ← setitem data key entry;
      merge_entries data' rest
  end.

Definition merge_file (fs : filesystem) (data : value) (filename : string)
  : result value :=
  d ← load_json fs filename;
  es ← getitem d "entries";
  entries ← iter es;
  merge_entries data entries.

(** [for filename in sys.argv[1:]: ...] *)
Fixpoint merge_files (fs : filesystem) (data : value) (argv : list string)
  : result value :=
  match argv with
  | [] => Ok data
  | filename :: rest =>
      data' ← merge_file fs data filename;
      merge_files fs data' rest
  end.

(** Reading the existing leaderboard: any error gives the empty dictionary. *)
Definition load_existing (fs : filesystem) : value :=
  match load_json fs leaderboard_file with
  | Ok v => v
  | Raise _ => VDict ∅
  end.

(** A run of the program: the states the file system goes through, first
    to last, and how the run ends. *)
Record run := mk_run { trace : list filesystem; outcome : result unit }.

(** The whole program. [tmpname] is the name [NamedTemporaryFile] picks
    and [partial] the successive contents of the temporary file while
    [json.dump] writes to it; once it is closed it holds the dump of
    [data], which [json.load] reads back as [data], and [os.replace]
    renames it onto the leaderboard file. *)
Definition main (fs : filesystem) (argv : list string) (tmpname : string)
    (partial : list contents) : run :=
  match merge_files fs (load_existing fs) argv with
  | Raise e => mk_run [fs] (Raise e)
  | Ok data =>
      let writing := (fun c => <[tmpname := c]> fs) <$> partial in
      let written := <[tmpname := Json data]> fs in
      let replaced := <[leaderboard_file := Json data]> (delete tmpname written) in
      mk_run (fs :: writing ++ [written; replaced]) (Ok ())
  end.

End Tool.
End UpdateLeaderboard.

(** ** Notions the properties are stated with *)

Module Notions.
Import RestApi.

(** The [properties] of a weather observation and its parsed timestamp,
    when it has one that parses. *)
Definition observation (event : value) : option (value * datetime) :=
  match getitem event "properties" with
  | Ok props =>
      match getitem props "timestamp" with
      | Ok ts =>
          match ts_parse ts with
          | Ok (Some dt) => Some (props, dt)
          | _ => None
          end
      | Raise _ => None
      end
  | Raise _ => None
  end.

(** An observation that has a timestamp, which does not parse. *)
Definition unparseable (event : value) : Prop :=
  ∃ props ts, getitem event "properties" = Ok props
    ∧ getitem props "timestamp" = Ok ts ∧ ts_parse ts = Ok None.

(** The absolute time distance, in seconds, between two datetimes. *)
Definition distance (t dt : datetime) : Z := Z.abs (Datetime.sub t dt).

(** The parsed [start_date] of a leaderboard record, when it has one. *)
Definition start_date (record : value) : option datetime :=
  match getitem record "start_date" with
  | Ok sd =>
      match ts_parse sd with
      | Ok (Some dt) => Some dt
      | _ => None
      end
  | Raise _ => None
  end.

(** Whether the record stored under [k] starts within [lo, hi]. *)
Definition selected (lo hi : datetime) (D : gmap string value) (k : string) : bool :=
  match D !! k with
  | Some r =>
      match start_date r with
      | Some dt => Datetime.leb lo dt && Datetime.leb dt hi
      | None => false
      end
  | None => false
  end.

Section Layouts.
Import Strptime.

(** Whether some character class of [r] has the character [a]. *)
Fixpoint accepts (r : re) (a : ascii) : bool :=
  match r with
  | Chr c => Ascii.eqb (lower a) (lower c)
  | Digit => is_digit a
  | Rng lo hi => Strptime.in_range lo hi a
  | Cat r1 r2 | Alt r1 r2 => accepts r1 a || accepts r2 a
  | Grp _ r1 => accepts r1 a
  | Eps => false
  end.

(** Whether every character of [s] satisfies [p]. *)
Fixpoint all_chars (p : ascii → bool) (s : string) : bool :=
  match s with
  | EmptyString => true
  | String a s' => p a && all_chars p s'
  end.

(** The pieces of the layout without zone suffix. *)
Definition naive_pieces : list re := default [] (pattern "%Y-%m-%dT%H:%M:%S").

(** A match of a text, seen as a match of the text followed by [t]. *)
Definition push (t : string) (x : string * list (string * string) * string) :=
  (x.1.1, x.1.2, x.2 +:+ t).

(** [t] is empty or starts with a character that [r] does not accept. *)
Definition tail_ok (r : re) (t : string) : bool :=
  match t with
  | EmptyString => true
  | String a _ => negb (accepts r a)
  end.

End Layouts.

Section Keys.
Variable py_repr : value → string.

(** A field of an entry as the composite key sees it: the empty string
    when the entry lacks the field. *)
Definition field (entry : gmap string value) (name : string) : value :=
  default (VStr "") (entry !! name).

Definition composite_key (entry : gmap string value) : string :=
  UpdateLeaderboard.str py_repr (field entry "start_date") +:+ "+"
  +:+ UpdateLeaderboard.str py_repr (field entry "athlete_name") +:+ "+"
  +:+ UpdateLeaderboard.str py_repr (field entry "rank").

(** The last of the entries that has composite key [k]. *)
Definition last_with_key (k : string) (entries : list (gmap string value))
  : option (gmap string value) :=
  last (filter (λ e, composite_key e = k) entries).

(** Storing each entry, in turn, under its composite key. *)
Definition store_all (E : gmap string value) (entries : list (gmap string value))
  : gmap string value :=
  foldl (λ m e, <[composite_key e := VDict e]> m) E entries.

End Keys.

(** A batch file: a JSON object whose [entries] are these objects. *)
Definition holds_batch (fs : filesystem) (filename : string)
    (entries : list (gmap string value)) : Prop :=
  ∃ d, fs !! filename = Some (Json (VDict d))
    ∧ d !! "entries" = Some (VList (VDict <$> entries)).

End Notions.

(** ** Sample data *)

Module Samples.

Definition noon : datetime := mk_datetime 2024 1 1 12 0 0.

Definition reading (ts : string) (temp : Z) : value :=
  VDict {[ "timestamp" := VStr ts;
           "temperature" := VDict {[ "value" := VInt temp ]} ]}.

Definition observed (ts : string) (temp : Z) : value :=
  VDict {[ "properties" := reading ts temp ]}.

(** Two hours before noon, then one hour before and one hour after. *)
Definition three_observations : list value :=
  [ observed "2024-01-01T10:00:00Z" 3;
    observed "2024-01-01T11:00:00+00:00" 5;
    observed "2024-01-01T13:00:00" 8 ].

Definition weather : gmap string value :=
  {[ "features" := VList three_observations ]}.

Definition weather_undated : gmap string value :=
  {[ "features" := VList [observed "yesterday" 5] ]}.

Definition alice : gmap string value :=
  {[ "start_date" := VStr "2024-01-01T00:00:00Z";
     "athlete_name" := VStr "alice";
     "rank" := VInt 1 ]}.

Definition alice_again : gmap string value :=
  <[ "elapsed_time" := VInt 977 ]> alice.

Definition bob : gmap string value :=
  {[ "start_date" := VStr "2024-03-05T08:30:00"; "athlete_name" := VStr "bob" ]}.

Definition leaderboard : gmap string value :=
  {[ "2024-01-01T00:00:00Z+alice+1" := VDict alice ]}.

Definition served : filesystem :=
  {[ "data/leaderboard.json" := Json (VDict leaderboard) ]}.

Definition batch (entries : list (gmap string value)) : contents :=
  Json (VDict {[ "entries" := VList (VDict <$> entries) ]}).

Definition disk : filesystem :=
  {[ "leaderboard.json" := Json (VDict leaderboard);
     "new.json" := batch [alice_again; bob];
     "broken.json" := NotJson ]}.

End Samples.

(** ** restapi.py: the exception class and the temperature handler *)

Module Usage.

(** An [InvalidUsage] exception with its three attributes. *)
Record invalid_usage := mk_usage {
  message : string;
  status_code : Z;
  payload : option (gmap string value)
}.

(** [InvalidUsage(message, status_code, payload)]: the class attribute 400
    stands unless a status code is given. *)
Definition init (message : string) (status_code : option Z)
    (payload : option (gmap string value)) : invalid_usage :=
  mk_usage message
    (match status_code with Some code => code | None => 400%Z end)
    payload.

(** [rv = dict(self.payload or ()); rv['message'] = self.message] *)
Definition to_dict (error : invalid_usage) : gmap string value :=
  <["message" := VStr (message error)]>
    (match payload error with Some p => p | None => ∅ end).

(** [handle_invalid_usage] on the exception object. *)
Definition handle (error : invalid_usage) : RestApi.response :=
  RestApi.mk_response (status_code error) (VDict (to_dict error)).

End Usage.

Module TempRange.
Import RestApi.
Section Floats.

(** [float(text)]: the float a text denotes, [None] where Python raises
    ValueError. *)
Variable py_float : string → option spec_float.

(** Python's comparison of an integer with a float, which is exact;
    [None] when the float is not a number. *)
Variable int_float_compare : Z → spec_float → option comparison.

(** The order of a JSON value and a float; only numbers (and booleans,
    which are integers) can be ordered against a float. *)
Definition num_compare (v : value) (f : spec_float)
  : result (option comparison) :=
  match v with
  | VFloat x => Ok (SFcompare x f)
  | VInt z => Ok (int_float_compare z f)
  | VBool b => Ok (int_float_compare (if b then 1 else 0)%Z f)
  | _ => Raise TypeError
  end.

(** [temp >= temp1] *)
Definition num_ge (v : value) (f : spec_float) : result bool :=
  c ← num_compare v f;
  Ok (match c with Some Gt | Some Eq => true | _ => false end).

(** [temp <= temp2] *)
Definition num_le (v : value) (f : spec_float) : result bool :=
  c ← num_compare v f;
  Ok (match c with Some Lt | Some Eq => true | _ => false end).

(** [temp >= temp1 and temp <= temp2] *)
Definition temp_in_range (temp : value) (temp1 temp2 : spec_float)
  : result bool :=
  above ← num_ge temp temp1;
  if above : bool then num_le temp temp2 else Ok false.

Fixpoint temprange_loop (events wevents : value) (temp1 temp2 : spec_float)
    (keys : list string) (retlist : list value) : result (list value) :=
  match keys with
  | [] => Ok retlist
  | event :: rest =>
      record ← getitem events event;
      sd ← getitem record "start_date";
      dt ← ts_parse sd;
      weather ← weather_find dt wevents;
      temperature ← getitem weather "temperature";
      temp ← getitem temperature "value";
      keep ← temp_in_range temp temp1 temp2;
      temprange_loop events wevents temp1 temp2 rest
        (if keep : bool then retlist ++ [record] else retlist)
  end.

Definition leaders_temprange (fs : filesystem) (temp1 temp2 : string)
  : result value :=
  match py_float temp1, py_float temp2 with
  | Some t1, Some t2 =>
      if SFltb t2 t1
      then Raise (InvalidUsage
                    "First temp must be less than or equal to second" 400)
      else
        events ← read_json_dict fs leaderboard_file;
        wevents ← read_json_dict fs weather_file;
        keys ← sorted_keys events;
        retlist ← temprange_loop events wevents t1 t2 keys [];
        Ok (VList retlist)
  | _, _ => Raise (InvalidUsage "Invalid temperature parameter" 400)
  end.

End Floats.
End TempRange.

(** ** Further notions *)

Module Further.
Import RestApi Notions.

(** The distance from [t] of an observation whose timestamp parses. *)
Definition obs_distance (t : datetime) (event : value) : option Z :=
  (λ o, distance t o.2) <$> observation event.

(** The temperature an observation's properties report. *)
Definition temperature_of (weather : value) : result value :=
  temperature ← getitem weather "temperature";
  getitem temperature "value".

(** The entries a batch file yields to the merge loop. *)
Definition file_entries (fs : filesystem) (filename : string)
  : result (list value) :=
  d ← load_json fs filename;
  es ← getitem d "entries";
  iter es.

(** The file system a run leaves behind. *)
Definition final (r : UpdateLeaderboard.run) : option filesystem :=
  last (UpdateLeaderboard.trace r).

(** All the entries the batch files yield, in order. *)
Fixpoint all_entries (fs : filesystem) (argv : list string)
  : result (list value) :=
  match argv with
  | [] => Ok []
  | filename :: rest =>
      l ← file_entries fs filename;
      ls ← all_entries fs rest;
      Ok (l ++ ls)
  end.

Section Judging.
Variable py_float : string → option spec_float.
Variable int_float_compare : Z → spec_float → option comparison.

(** What one turn of the loop of [leaders_temprange] decides for the
    record stored under [event]. *)
Definition keeps (events wevents : value) (temp1 temp2 : spec_float)
    (event : string) : result bool :=
  record ← getitem events event;
  sd ← getitem record "start_date";
  dt ← ts_parse sd;
  weather ← weather_find dt wevents;
  temp ← temperature_of weather;
  TempRange.temp_in_range int_float_compare temp temp1 temp2.

Definition kept (events wevents : value) (temp1 temp2 : spec_float)
    (event : string) : bool :=
  match keeps events wevents temp1 temp2 event with
  | Ok true => true
  | _ => false
  end.
End Judging.

(** The composite keys of a list of entries. *)
Definition keys_of (py_repr : value → string)
    (entries : list (gmap string value)) : list string :=
  composite_key py_repr <$> entries.

End Further.

(** ** Further sample data *)

Module MoreSamples.

(** [float] on the texts the samples use. *)
Definition float_of (text : string) : option spec_float :=
  if decide (text = "0") then Some (S754_zero false)
  else if decide (text = "inf") then Some (S754_infinity false)
  else if decide (text = "-inf") then Some (S754_infinity true)
  else None.

(** An integer against the floats of [float_of]. *)
Definition int_against (z : Z) (f : spec_float) : option comparison :=
  match f with
  | S754_zero _ => Some (z ?= 0)%Z
  | S754_infinity false => Some Lt
  | S754_infinity true => Some Gt
  | _ => None
  end.

Definition served : filesystem :=
  {[ "data/leaderboard.json" := Json (VDict Samples.leaderboard);
     "data/station_observations.json" := Json (VDict Samples.weather) ]}.

Definition served_no_weather : filesystem :=
  {[ "data/leaderboard.json" := Json (VDict Samples.leaderboard);
     "data/station_observations.json" :=
       Json (VDict {[ "features" := VList [] ]}) ]}.

Definition first_run : filesystem :=
  {[ "new.json" := Samples.batch [Samples.alice_again; Samples.bob] ]}.

Definition merged : gmap string value :=
  {[ "2024-01-01T00:00:00Z+alice+1" := VDict Samples.alice_again;
     "2024-03-05T08:30:00+bob+" := VDict Samples.bob ]}.

Definition two_batches : filesystem :=
  {[ "a.json" := Samples.batch [Samples.alice_again];
     "b.json" := Samples.batch [Samples.bob] ]}.

Definition list_on_disk : filesystem :=
  {[ "leaderboard.json" := Json (VList []);
     "new.json" := Samples.batch [Samples.alice_again; Samples.bob] ]}.

Definition ten_past_eleven : datetime := mk_datetime 2024 1 1 11 10 0.

Definition weather_reversed : gmap string value :=
  {[ "features" := VList (reverse Samples.three_observations) ]}.

End MoreSamples.

(** * Properties *)

Import RestApi Notions.

(** ** The result monad *)

Lemma bind_Ok {A B} (m : result A) (k : A → result B) (a : A) :
  m = Ok a → m ≫= k = k a.
Proof. by intros ->. Qed.

Lemma bind_Raise {A B} (m : result A) (k : A → result B) (e : exn) :
  m = Raise e → m ≫= k = Raise e.
Proof. by intros ->. Qed.

Lemma bind_Ok_inv {A B} (m : result A) (k : A → result B) (b : B) :
  m ≫= k = Ok b → ∃ a, m = Ok a ∧ k a = Ok b.
Proof. destruct m as [a|e]; [by exists a | done]. Qed.

(** ** Loading a dataset *)

(** C7: [read_json_dict] raises FileNotFoundError when the file is
    missing and JSONDecodeError when it is not valid JSON; it returns a
    value only when the file exists and holds that very value, so no
    empty mapping is ever substituted for a file that failed to load. *)
Theorem read_json_dict_propagates (fs : filesystem) (fname : string) :
  (fs !! fname = None → read_json_dict fs fname = Raise FileNotFoundError)
  ∧ (fs !! fname = Some NotJson → read_json_dict fs fname = Raise JSONDecodeError)
  ∧ (∀ v, read_json_dict fs fname = Ok v ↔ fs !! fname = Some (Json v)).
Proof.
  unfold read_json_dict, load_json. split_and!.
  - by intros ->.
  - by intros ->.
  - intros v. destruct (fs !! fname) as [[w|]|]; naive_solver.
Qed.

(** ** The timestamp codec *)

Lemma ts_parse_from_first (fmts : list string) (ts : value) :
  ∃ r, ts_parse_from fmts ts = Ok r ∧
    match r with
    | Some dt =>
        ∃ (i : nat) fmt, fmts !! i = Some fmt ∧ strptime ts fmt = Ok dt
          ∧ ∀ (j : nat) fmt', (j < i)%nat → fmts !! j = Some fmt' →
              ∃ e, strptime ts fmt' = Raise e
    | None => ∀ fmt, fmt ∈ fmts → ∃ e, strptime ts fmt = Raise e
    end.
Proof.
  induction fmts as [|fmt fmts IH]; simpl.
  - exists None. split; [done|]. intros fmt Hin. by apply elem_of_nil in Hin.
  - destruct (strptime ts fmt) as [dt|e] eqn:Hfmt.
    + exists (Some dt). split; [done|]. exists 0%nat, fmt.
      split_and!; [done..|]. intros j fmt' Hj. lia.
    + destruct IH as (r & Hr & Hspec). exists r. split; [done|].
      destruct r as [dt|].
      * destruct Hspec as (i & fmt0 & Hi & Hok & Hbefore).
        exists (S i), fmt0. split_and!; [done..|].
        intros [|j] fmt' Hj Hlook; simplify_eq/=; [by eexists|].
        apply (Hbefore j); [lia | done].
      * intros fmt' [->|Hin]%elem_of_cons; [by eexists | by apply Hspec].
Qed.

Lemma ts_parse_total (ts : value) : ∃ r, ts_parse ts = Ok r.
Proof.
  destruct (ts_parse_from_first ts_formats ts) as (r & Hr & _). by exists r.
Qed.

(** C9: [ts_parse] goes through the three layouts in the order
    '+00:00', 'Z', no suffix; it always returns, never raises; the
    datetime it returns is the parse under the first layout that
    [strptime] accepts; and it returns [None] exactly when [strptime]
    rejects the text under all three. *)
Theorem ts_parse_first_accepted_layout (ts : value) :
  ts_formats = [ "%Y-%m-%dT%H:%M:%S+00:00"; "%Y-%m-%dT%H:%M:%SZ";
                 "%Y-%m-%dT%H:%M:%S" ]
  ∧ ∃ r, ts_parse ts = Ok r
    ∧ match r with
      | Some dt =>
          ∃ (i : nat) fmt, ts_formats !! i = Some fmt ∧ strptime ts fmt = Ok dt
            ∧ ∀ (j : nat) fmt', (j < i)%nat → ts_formats !! j = Some fmt' →
                ∃ e, strptime ts fmt' = Raise e
      | None => True
      end
    ∧ (r = None ↔ ∀ fmt, fmt ∈ ts_formats → ∃ e, strptime ts fmt = Raise e).
Proof.
  split; [done|].
  destruct (ts_parse_from_first ts_formats ts) as (r & Hr & Hspec).
  exists r. split; [done|]. destruct r as [dt|].
  - split; [done|]. split; [done|]. intros Hall.
    destruct Hspec as (i & fmt & Hi & Hok & _).
    destruct (Hall fmt) as [e He]; [by eapply list_elem_of_lookup_2|].
    congruence.
  - done.
Qed.

(** ** The nearest weather observation *)

Lemma weather_step_parsed t st event props dt :
  observation event = Some (props, dt) →
  weather_step (Some t) st event =
    Ok (match st.1 with
        | None => (Some (distance t dt), props)
        | Some nearest =>
            if (distance t dt <? nearest)%Z then (Some (distance t dt), props)
            else st
        end).
Proof.
  unfold observation, weather_step. intros Hobs.
  destruct (getitem event "properties") as [p|]; [simpl|done].
  destruct (getitem p "timestamp") as [ts|]; [simpl|done].
  destruct (ts_parse ts) as [[dte|]|]; simplify_eq/=.
  fold (distance t dt). destruct st.1 as [n|]; [|done].
  by destruct (distance t dt <? n)%Z.
Qed.

Lemma weather_step_unparseable dt st event :
  unparseable event → weather_step dt st event = Raise TypeError.
Proof.
  intros (props & ts & Hprops & Hts & Hparse). unfold weather_step.
  rewrite Hprops. simpl. rewrite Hts. simpl. rewrite Hparse. simpl.
  by destruct dt.
Qed.

Lemma weather_loop_app dt st l1 l2 :
  weather_loop dt st (l1 ++ l2) =
    weather_loop dt st l1 ≫= λ st', weather_loop dt st' l2.
Proof.
  revert st. induction l1 as [|event l1 IH]; intros st; simpl; [done|].
  destruct (weather_step dt st event) as [st'|e]; simpl; [apply IH | done].
Qed.

(** The state of the loop after a non-empty run of observations that all
    parse: the distance and properties of the first nearest one. *)
Lemma weather_loop_nearest t (obs : list value) :
  Forall (λ event, is_Some (observation event)) obs → obs ≠ [] →
  ∃ (i : nat) event props dt,
    obs !! i = Some event ∧ observation event = Some (props, dt)
    ∧ weather_loop (Some t) (None, VNone) obs = Ok (Some (distance t dt), props)
    ∧ ∀ (j : nat) event' props' dt',
        obs !! j = Some event' → observation event' = Some (props', dt') →
        (distance t dt ≤ distance t dt')%Z
        ∧ ((j < i)%nat → (distance t dt < distance t dt')%Z).
Proof.
  induction obs as [|x l IH] using rev_ind; [done|].
  intros [Hl Hx]%Forall_app _. apply Forall_singleton in Hx as [[px dx] Hx].
  rewrite weather_loop_app.
  assert (l = [] ∨ l ≠ []) as [->|Hne] by (destruct l; auto).
  - (* the first observation *)
    exists 0%nat, x, px, dx. simpl.
    rewrite (weather_step_parsed _ _ _ _ _ Hx). simpl. split_and!; [done..|].
    intros [|j] ev' p' d' Hj Hev'; simplify_eq/=. split; lia.
  - destruct (IH Hl Hne) as (i & ev & p & d & Hi & Hev & Hloop & Hmin).
    rewrite Hloop. simpl. rewrite (weather_step_parsed _ _ _ _ _ Hx). simpl.
    destruct (Z.ltb_spec (distance t dx) (distance t d)) as [Hlt|Hge].
    + (* strictly nearer: the new observation takes over *)
      exists (length l), x, px, dx. split_and!; [|done..|].
      { by apply list_lookup_middle. }
      intros j ev' p' d' [[Hj Hlook]|[-> ->]]%lookup_snoc_Some Hev'.
      * destruct (Hmin j ev' p' d' Hlook Hev') as [Hle _]. split; lia.
      * simplify_eq. split; lia.
    + (* not strictly nearer: the earlier observation stays *)
      exists i, ev, p, d. split_and!; [|done..|].
      { apply lookup_app_l_Some, Hi. }
      intros j ev' p' d' [[Hj Hlook]|[-> ->]]%lookup_snoc_Some Hev'.
      * by apply (Hmin j ev' p' d').
      * simplify_eq. split; [lia|]. apply lookup_lt_Some in Hi. lia.
Qed.

(** C2: for a target time and a non-empty sequence of observations
    whose timestamps all parse, [weather_find] returns the properties of
    an observation at minimal absolute distance from the target, and every
    observation before it in the sequence is strictly farther: among
    equidistant observations the first one wins. *)
Theorem weather_find_first_nearest (t : datetime) (m : gmap string value)
    (obs : list value) :
  m !! "features" = Some (VList obs) →
  obs ≠ [] →
  Forall (λ event, is_Some (observation event)) obs →
  ∃ (i : nat) event props dt,
    obs !! i = Some event ∧ observation event = Some (props, dt)
    ∧ weather_find (Some t) (VDict m) = Ok props
    ∧ ∀ (j : nat) event' props' dt',
        obs !! j = Some event' → observation event' = Some (props', dt') →
        (distance t dt ≤ distance t dt')%Z
        ∧ ((j < i)%nat → (distance t dt < distance t dt')%Z).
Proof.
  intros Hm Hne Hall.
  destruct (weather_loop_nearest t obs Hall Hne)
    as (i & ev & p & d & Hi & Hev & Hloop & Hmin).
  exists i, ev, p, d. split_and!; [done..| |done].
  unfold weather_find. simpl. rewrite Hm. simpl. by rewrite Hloop.
Qed.

(** C3, as the code has it: [weather_find] returns [None] for an empty
    sequence of observations; an observation whose timestamp does not
    parse is not skipped: once the loop reaches it, after observations
    that parse, the search fails with a TypeError. *)
Theorem weather_find_empty_or_type_error (t : datetime) (m : gmap string value) :
  (m !! "features" = Some (VList []) → weather_find (Some t) (VDict m) = Ok VNone)
  ∧ (∀ pre event post,
       m !! "features" = Some (VList (pre ++ event :: post)) →
       Forall (λ e, is_Some (observation e)) pre →
       unparseable event →
       weather_find (Some t) (VDict m) = Raise TypeError).
Proof.
  split.
  - intros Hm. unfold weather_find. simpl. by rewrite Hm.
  - intros pre event post Hm Hpre Hbad. unfold weather_find. simpl.
    rewrite Hm. simpl. rewrite weather_loop_app.
    assert (∃ st, weather_loop (Some t) (None, VNone) pre = Ok st) as [st ->].
    { generalize (None : option Z, VNone). clear Hm.
      induction pre as [|x pre IH]; intros st; simpl; [by eexists|].
      apply Forall_cons in Hpre as [[[px dx] Hx] Hpre].
      rewrite (weather_step_parsed _ _ _ _ _ Hx). simpl. by apply IH. }
    simpl. by rewrite weather_step_unparseable.
Qed.

(** [weather_find] on the sample: the observations one hour before and
    one hour after noon are equidistant, and the earlier in the sequence
    is returned. *)
Lemma weather_find_first_nearest_sample :
  ∃ (i : nat) event props dt,
    Samples.three_observations !! i = Some event
    ∧ observation event = Some (props, dt)
    ∧ weather_find (Some Samples.noon) (VDict Samples.weather) = Ok props
    ∧ ∀ (j : nat) event' props' dt',
        Samples.three_observations !! j = Some event' →
        observation event' = Some (props', dt') →
        (distance Samples.noon dt ≤ distance Samples.noon dt')%Z
        ∧ ((j < i)%nat → (distance Samples.noon dt < distance Samples.noon dt')%Z).
Proof.
  apply (weather_find_first_nearest Samples.noon Samples.weather
           Samples.three_observations).
  - reflexivity.
  - discriminate.
  - repeat constructor; vm_compute; eauto.
Defined.

(** Against C3 as stated: the only observation has a timestamp that does
    not parse, and the search fails instead of returning [None]. *)
Lemma weather_find_undated_fails :
  Forall unparseable [Samples.observed "yesterday" 5]
  ∧ weather_find (Some Samples.noon) (VDict Samples.weather_undated)
    = Raise TypeError
  ∧ weather_find (Some Samples.noon) (VDict Samples.weather_undated) ≠ Ok VNone.
Proof.
  split_and!.
  - repeat constructor.
    exists (Samples.reading "yesterday" 5), (VStr "yesterday").
    split_and!; vm_compute; reflexivity.
  - vm_compute. reflexivity.
  - vm_compute. discriminate.
Qed.

(** ** Filtering the leaderboard by time *)

Lemma cmp_fields_antisym (a b : list Z) :
  Datetime.cmp_fields a b = CompOpp (Datetime.cmp_fields b a).
Proof.
  revert b. induction a as [|x a IH]; intros [|y b]; simpl; try done.
  rewrite (Z.compare_antisym y x). destruct (y ?= x)%Z; simpl; auto.
Qed.

Lemma leb_iff_not_ltb (a b : datetime) :
  Datetime.leb a b = negb (Datetime.ltb b a).
Proof.
  unfold Datetime.leb, Datetime.ltb, Datetime.cmp.
  rewrite (cmp_fields_antisym (Datetime.fields a)).
  by destruct (Datetime.cmp_fields (Datetime.fields b) (Datetime.fields a)).
Qed.

Lemma StronglySorted_filter {A} (R : relation A) (P : A → Prop)
    `{!∀ x, Decision (P x)} (l : list A) :
  StronglySorted R l → StronglySorted R (filter P l).
Proof.
  induction 1 as [|x l Hl IH Hx]; [constructor|].
  rewrite filter_cons. case_decide; [|done].
  constructor; [done|]. apply Forall_forall. intros y [_ Hy]%list_elem_of_filter.
  by eapply Forall_forall in Hx.
Qed.

Lemma omap_lookup_Forall2 (D : gmap string value) (keys : list string) :
  (∀ k, k ∈ keys → is_Some (D !! k)) →
  Forall2 (λ k r, D !! k = Some r) keys (omap (D !!.) keys).
Proof.
  induction keys as [|k keys IH]; intros Hin; simpl; [constructor|].
  destruct (Hin k) as [r Hr]; [left|]. rewrite Hr.
  constructor; [done|]. apply IH. intros k' ?. apply Hin. by right.
Qed.

Lemma start_date_dict (r : value) : is_Some (start_date r) → ∃ e, r = VDict e.
Proof. destruct r; unfold start_date; simpl; intros [? ?]; by eauto. Qed.

(** The loop keeps, in the order of the keys, the records that start
    within the range. *)
Lemma timerange_loop_filter (D : gmap string value) (lo hi : datetime)
    (keys : list string) (retlist : list value) :
  (∀ k, k ∈ keys → ∃ r, D !! k = Some r ∧ is_Some (start_date r)) →
  timerange_loop (VDict D) lo hi keys retlist =
    Ok (retlist
        ++ omap (D !!.) (filter (λ k, selected lo hi D k = true) keys)).
Proof.
  revert retlist. induction keys as [|k keys IH]; intros retlist Hkeys.
  - simpl. by rewrite app_nil_r.
  - destruct (Hkeys k) as (r & Hr & dt & Hdt); [left|].
    assert (selected lo hi D k = Datetime.leb lo dt && Datetime.leb dt hi) as Hsel.
    { unfold selected. by rewrite Hr, Hdt. }
    unfold start_date in Hdt. cbn [timerange_loop getitem]. rewrite Hr. simpl.
    destruct (getitem r "start_date") as [sd|]; [simpl|done].
    destruct (ts_parse sd) as [[dt'|]|]; simplify_eq/=.
    rewrite IH by (intros k' ?; apply Hkeys; by right).
    rewrite filter_cons. rewrite Hsel.
    destruct (Datetime.leb lo dt && Datetime.leb dt hi); simpl.
    + rewrite Hr. by rewrite <- app_assoc.
    + done.
Qed.

(** C1: with two bounds that parse to [lo ≤ hi] and a leaderboard
    whose records all have a [start_date] that parses, the time-range
    handler returns the records stored under the keys whose record starts
    within [lo, hi], both ends included, and no others, in strictly
    ascending order of their keys; when a bound does not parse, or the
    second bound is earlier than the first, it raises InvalidUsage, which
    the client receives as a 400 answer that holds a message and no
    record. The keys are those of the stored mapping; when every record
    is stored under its composite key, as the merge tool stores them, they
    are the composite keys of the records returned. *)
Theorem leaders_timerange_exact (fs : filesystem) (ts1 ts2 : string) :
  (∀ lo hi (D : gmap string value),
     ts_parse (VStr ts1) = Ok (Some lo) →
     ts_parse (VStr ts2) = Ok (Some hi) →
     Datetime.leb lo hi = true →
     fs !! leaderboard_file = Some (Json (VDict D)) →
     (∀ k r, D !! k = Some r → is_Some (start_date r)) →
     ∃ keys records,
       leaders_timerange fs ts1 ts2 = Ok (VList records)
       ∧ Forall2 (λ k r, D !! k = Some r) keys records
       ∧ StronglySorted String.le keys ∧ NoDup keys
       ∧ (∀ k, k ∈ keys ↔
            ∃ r dt, D !! k = Some r ∧ start_date r = Some dt
              ∧ Datetime.leb lo dt = true ∧ Datetime.leb dt hi = true)
       ∧ ∀ py_repr,
           (∀ k e, D !! k = Some (VDict e) → composite_key py_repr e = k) →
           Forall2 (λ k r, ∃ e, r = VDict e ∧ composite_key py_repr e = k)
             keys records)
  ∧ ((ts_parse (VStr ts1) = Ok None ∨ ts_parse (VStr ts2) = Ok None
      ∨ ∃ lo hi, ts_parse (VStr ts1) = Ok (Some lo)
          ∧ ts_parse (VStr ts2) = Ok (Some hi) ∧ Datetime.ltb hi lo = true) →
     leaders_timerange fs ts1 ts2
       = Raise (InvalidUsage "Error parsing timestamp parameters" 400)
     ∧ respond (leaders_timerange fs ts1 ts2)
       = mk_response 400
           (VDict {[ "message" := VStr "Error parsing timestamp parameters" ]})).
Proof.
  split.
  - intros lo hi D Hlo Hhi Hle Hfs Hdates.
    set (sorted := merge_sort String.le (map_to_list D).*1).
    assert (∀ k, k ∈ sorted ↔ is_Some (D !! k)) as Hsorted.
    { intros k. unfold sorted. rewrite merge_sort_Permutation.
      rewrite list_elem_of_fmap. split.
      - intros ([k' r] & -> & Hin%elem_of_map_to_list). by exists r.
      - intros [r Hr]. exists (k, r). split; [done|].
        by apply elem_of_map_to_list. }
    exists (filter (λ k, selected lo hi D k = true) sorted).
    eexists. split_and!.
    + unfold leaders_timerange. rewrite Hlo, Hhi. simpl.
      rewrite leb_iff_not_ltb in Hle. apply negb_true_iff in Hle. rewrite Hle.
      unfold read_json_dict, load_json. rewrite Hfs. simpl. fold sorted.
      rewrite timerange_loop_filter; [done|].
      intros k [r Hr]%Hsorted. exists r. eauto.
    + apply omap_lookup_Forall2.
      intros k [_ Hk]%list_elem_of_filter. by apply Hsorted.
    + apply StronglySorted_filter, StronglySorted_merge_sort; apply _.
    + apply NoDup_filter. unfold sorted. rewrite merge_sort_Permutation.
      apply NoDup_fst_map_to_list.
    + intros k. rewrite list_elem_of_filter, Hsorted. unfold selected. split.
      * intros [Hsel [r Hr]]. rewrite Hr in Hsel.
        destruct (start_date r) as [dt|] eqn:Hdt; [|done].
        apply andb_true_iff in Hsel as [? ?]. by exists r, dt.
      * intros (r & dt & Hr & Hdt & H1 & H2). rewrite Hr, Hdt, H1, H2. eauto.
    + intros py_repr Hinv. eapply Forall2_impl.
      * apply omap_lookup_Forall2.
        intros k [_ Hk]%list_elem_of_filter. by apply Hsorted.
      * intros k r Hr. simpl in Hr.
        destruct (start_date_dict r (Hdates k r Hr)) as [e ->]. eauto.
  - intros Hbad. assert (leaders_timerange fs ts1 ts2
      = Raise (InvalidUsage "Error parsing timestamp parameters" 400)) as ->.
    { unfold leaders_timerange.
      destruct Hbad as [H1|[H2|(lo & hi & H1 & H2 & Hlt)]].
      - rewrite H1. destruct (ts_parse_total (VStr ts2)) as [r ->]. simpl.
        by destruct r.
      - rewrite H2. destruct (ts_parse_total (VStr ts1)) as [r ->]. simpl.
        by destruct r.
      - rewrite H1, H2. simpl. by rewrite Hlt. }
    done.
Qed.

(** ** The merge tool *)

Section Merge.
Variable py_repr : value → string.
Import UpdateLeaderboard.

Notation make_composite_key := (make_composite_key py_repr).
Notation merge_entries := (merge_entries py_repr).
Notation merge_file := (merge_file py_repr).
Notation merge_files := (merge_files py_repr).
Notation main := (main py_repr).
Notation composite_key := (composite_key py_repr).
Notation store_all := (store_all py_repr).
Notation last_with_key := (last_with_key py_repr).
Notation str := (str py_repr).

Lemma unique_key_fields_eq :
  unique_key_fields = ["start_date"; "athlete_name"; "rank"].
Proof. reflexivity. Qed.

Lemma make_composite_key_dict (e : gmap string value) :
  make_composite_key (VDict e) unique_key_fields = Ok (composite_key e).
Proof.
  rewrite unique_key_fields_eq.
  unfold UpdateLeaderboard.make_composite_key, Notions.composite_key, field.
  simpl.
  by destruct (e !! "start_date"), (e !! "athlete_name"), (e !! "rank").
Qed.

Lemma make_composite_key_other (v : value) :
  (∀ e, v ≠ VDict e) →
  make_composite_key v unique_key_fields = Raise AttributeError.
Proof. intros Hv. destruct v; try done. by destruct (Hv m). Qed.

Lemma merge_entries_dicts (E : gmap string value) (ds : list (gmap string value)) :
  merge_entries (VDict E) (VDict <$> ds) = Ok (VDict (store_all E ds)).
Proof.
  revert E. induction ds as [|e ds IH]; intros E; [done|].
  cbn [fmap list_fmap UpdateLeaderboard.merge_entries].
  rewrite make_composite_key_dict. simpl. apply IH.
Qed.

(** Last write wins, key by key. *)
Lemma store_all_lookup (E : gmap string value) (ds : list (gmap string value))
    (k : string) :
  store_all E ds !! k =
    match last_with_key k ds with
    | Some e => Some (VDict e)
    | None => E !! k
    end.
Proof.
  unfold Notions.store_all, Notions.last_with_key.
  revert E. induction ds as [|e ds IH]; intros E; [done|].
  simpl. rewrite IH, filter_cons.
  destruct (decide (composite_key e = k)) as [<-|Hne].
  - destruct (filter _ ds) as [|e' l] eqn:Hf; simpl.
    + by rewrite lookup_insert_eq.
    + destruct (last (e' :: l)) eqn:Hl; [done|]. by apply last_None in Hl.
  - destruct (last (filter _ ds)); [done|]. by rewrite lookup_insert_ne.
Qed.

Lemma store_all_app (E : gmap string value) (l1 l2 : list (gmap string value)) :
  store_all E (l1 ++ l2) = store_all (store_all E l1) l2.
Proof. apply foldl_app. Qed.

Lemma store_all_twice (E : gmap string value) (ds : list (gmap string value)) :
  store_all (store_all E ds) ds = store_all E ds.
Proof.
  apply map_eq. intros k. rewrite !store_all_lookup.
  by destruct (last_with_key k ds).
Qed.

(** Either every entry is an object, or merging fails whatever the
    mapping merged into. *)
Lemma entries_dicts_or_fail (l : list value) :
  (∃ ds, l = VDict <$> ds) ∨ (∃ e, ∀ E, merge_entries (VDict E) l = Raise e).
Proof.
  induction l as [|v l [[ds ->]|[e He]]].
  - left. by exists [].
  - destruct v as [| | | | | |d];
      try (right; exists AttributeError; by intros E).
    left. by exists (d :: ds).
  - destruct v as [| | | | | |d];
      try (right; exists AttributeError; by intros E).
    right. exists e. intros E.
    cbn [UpdateLeaderboard.merge_entries]. rewrite make_composite_key_dict.
    simpl. apply He.
Qed.

Lemma merge_entries_twice (data : value) (l : list value) :
  merge_entries data l ≫= (λ data', merge_entries data' l) = merge_entries data l.
Proof.
  destruct l as [|v l]; [done|].
  destruct data as [| | | | | |E];
    try (simpl; by destruct (make_composite_key v unique_key_fields)).
  destruct (entries_dicts_or_fail (v :: l)) as [[ds ->]|[e He]].
  - rewrite merge_entries_dicts. simpl.
    by rewrite merge_entries_dicts, store_all_twice.
  - by rewrite He.
Qed.

Lemma merge_files_app fs data (l1 l2 : list string) :
  merge_files fs data (l1 ++ l2) =
    merge_files fs data l1 ≫= λ data', merge_files fs data' l2.
Proof.
  revert data. induction l1 as [|f l1 IH]; intros data; simpl; [done|].
  destruct (merge_file fs data f); simpl; [apply IH | done].
Qed.

Lemma merge_file_batch fs (E : gmap string value) f ds :
  holds_batch fs f ds → merge_file fs (VDict E) f = Ok (VDict (store_all E ds)).
Proof.
  intros (d & Hf & Hd). unfold UpdateLeaderboard.merge_file, load_json.
  rewrite Hf. simpl. rewrite Hd. simpl. apply merge_entries_dicts.
Qed.

Lemma merge_files_batches fs (E : gmap string value) argv batches :
  Forall2 (holds_batch fs) argv batches →
  merge_files fs (VDict E) argv = Ok (VDict (store_all E (concat batches))).
Proof.
  intros Hall. revert E. induction Hall as [|f b argv batches Hf _ IH]; intros E.
  - done.
  - simpl. rewrite (merge_file_batch _ _ _ _ Hf). simpl.
    rewrite store_all_app. apply IH.
Qed.

Lemma merge_file_malformed fs data f :
  fs !! f = Some NotJson → merge_file fs data f = Raise JSONDecodeError.
Proof. intros Hf. unfold UpdateLeaderboard.merge_file, load_json. by rewrite Hf. Qed.

(** C8: the composite key of an entry is the string forms of its
    [start_date], [athlete_name] and [rank], a missing field counting as
    the empty string, joined by '+'; merging a batch always succeeds, every
    entry of the batch ends up with an entry of its own composite key
    stored under that key, and whatever the merged mapping holds that the
    existing mapping did not is an entry of the batch stored under its own
    composite key. *)
Theorem merge_stores_under_composite_key (E : gmap string value)
    (ds : list (gmap string value)) :
  (∀ e : gmap string value,
     make_composite_key (VDict e) unique_key_fields =
       Ok (str (default (VStr "") (e !! "start_date")) +:+ "+"
           +:+ str (default (VStr "") (e !! "athlete_name")) +:+ "+"
           +:+ str (default (VStr "") (e !! "rank"))))
  ∧ ∃ E', merge_entries (VDict E) (VDict <$> ds) = Ok (VDict E')
    ∧ (∀ e, e ∈ ds →
         ∃ e', e' ∈ ds ∧ composite_key e' = composite_key e
           ∧ E' !! composite_key e = Some (VDict e')
           ∧ make_composite_key (VDict e') unique_key_fields
             = Ok (composite_key e))
    ∧ (∀ k r, E' !! k = Some r →
         E !! k = Some r
         ∨ ∃ e, e ∈ ds ∧ r = VDict e
             ∧ make_composite_key r unique_key_fields = Ok k).
Proof.
  split; [apply make_composite_key_dict|].
  exists (store_all E ds). split; [apply merge_entries_dicts|]. split.
  - intros e He. rewrite store_all_lookup. unfold Notions.last_with_key.
    destruct (last _) as [e'|] eqn:Hlast.
    + apply last_Some_elem_of, list_elem_of_filter in Hlast as [Hk Hin].
      exists e'. rewrite make_composite_key_dict, Hk. done.
    + apply last_None in Hlast.
      by destruct (filter_nil_not_elem_of _ _ e Hlast).
  - intros k r. rewrite store_all_lookup. unfold Notions.last_with_key.
    destruct (last _) as [e'|] eqn:Hlast; [|by left].
    intros [= <-]. right.
    apply last_Some_elem_of, list_elem_of_filter in Hlast as [Hk Hin].
    exists e'. by rewrite make_composite_key_dict, Hk.
Qed.

(** C4: when every file named on the command line holds a batch of
    entries, the merge loop succeeds, and under each key the merged
    mapping holds the last entry, over all batches in the order applied,
    whose composite key is that key; a key of no entry keeps what the
    existing mapping had. *)
Theorem merge_last_write_wins (fs : filesystem) (argv : list string)
    (batches : list (list (gmap string value))) (E : gmap string value) :
  Forall2 (holds_batch fs) argv batches →
  ∃ E', merge_files fs (VDict E) argv = Ok (VDict E')
    ∧ ∀ k, E' !! k =
        match last_with_key k (concat batches) with
        | Some e => Some (VDict e)
        | None => E !! k
        end.
Proof.
  intros Hall. exists (store_all E (concat batches)).
  split; [by apply merge_files_batches | apply store_all_lookup].
Qed.

(** C5: merging a batch into a mapping and then the same batch into the
    result gives the same mapping as merging it once; the merge loop run
    on a file named twice in succession ends as it does on the file named
    once. *)
Theorem merge_idempotent (E : gmap string value) (ds : list (gmap string value)) :
  (∃ E', merge_entries (VDict E) (VDict <$> ds) = Ok (VDict E')
     ∧ merge_entries (VDict E') (VDict <$> ds) = Ok (VDict E'))
  ∧ (∀ fs f (data : value),
       merge_files fs data [f; f] = merge_files fs data [f]).
Proof.
  split.
  - exists (store_all E ds). rewrite !merge_entries_dicts.
    by rewrite store_all_twice.
  - intros fs f data. simpl. unfold UpdateLeaderboard.merge_file.
    destruct (load_json fs f) as [d|]; [simpl|done].
    destruct (getitem d "entries") as [es|]; [simpl|done].
    destruct (iter es) as [l|]; [simpl|done].
    pose proof (merge_entries_twice data l) as Htwice.
    destruct (merge_entries data l) as [data'|]; [simpl in *|done].
    rewrite Htwice. done.
Qed.

(** C6, as the code has it: when a batch file named on the command
    line is not valid JSON the run fails and the file system is left as it
    was; the failure is a JSONDecodeError when the files named before it
    merge without error, and otherwise the error of an earlier file: the
    error the merge loop raises on the files before it, which is the error
    of the first file that fails; and in every state the file system goes
    through during a run, the leaderboard file holds either what it held
    before the run or the complete merged dataset. *)
Theorem merge_failure_writes_nothing (fs : filesystem) (argv : list string)
    (tmpname : string) (partial : list contents) :
  (∀ f, f ∈ argv → fs !! f = Some NotJson →
     ∃ e, main fs argv tmpname partial = mk_run [fs] (Raise e))
  ∧ (∀ pre f post data,
       argv = pre ++ f :: post →
       merge_files fs (load_existing fs) pre = Ok data →
       fs !! f = Some NotJson →
       main fs argv tmpname partial = mk_run [fs] (Raise JSONDecodeError))
  ∧ (∀ pre f post e,
       argv = pre ++ f :: post →
       merge_files fs (load_existing fs) pre = Raise e →
       main fs argv tmpname partial = mk_run [fs] (Raise e))
  ∧ (∀ pre f post data e,
       argv = pre ++ f :: post →
       merge_files fs (load_existing fs) pre = Ok data →
       merge_file fs data f = Raise e →
       main fs argv tmpname partial = mk_run [fs] (Raise e))
  ∧ (tmpname ≠ leaderboard_file →
     ∀ s, s ∈ trace (main fs argv tmpname partial) →
       s !! leaderboard_file = fs !! leaderboard_file
       ∨ ∃ data, merge_files fs (load_existing fs) argv = Ok data
           ∧ s !! leaderboard_file = Some (Json data)).
Proof.
  assert (∀ pre f post, fs !! f = Some NotJson →
    ∀ data, merge_files fs data (pre ++ f :: post) =
      merge_files fs data pre ≫= λ _, Raise JSONDecodeError) as Hstop.
  { intros pre f post Hf data. rewrite merge_files_app.
    destruct (merge_files fs data pre); simpl; [|done].
    by rewrite (merge_file_malformed _ _ _ Hf). }
  split_and!.
  - intros f [pre [post ->]]%list_elem_of_split Hf.
    unfold UpdateLeaderboard.main. rewrite (Hstop _ _ _ Hf).
    destruct (merge_files fs _ pre); simpl; by eexists.
  - intros pre f post data -> Hpre Hf.
    unfold UpdateLeaderboard.main. by rewrite (Hstop _ _ _ Hf), Hpre.
  - intros pre f post e -> Hpre.
    unfold UpdateLeaderboard.main. by rewrite merge_files_app, Hpre.
  - intros pre f post data e -> Hpre Hf.
    unfold UpdateLeaderboard.main. rewrite merge_files_app, Hpre. simpl.
    by rewrite Hf.
  - intros Htmp s. unfold UpdateLeaderboard.main.
    destruct (merge_files fs _ argv) as [data|e]; simpl.
    + rewrite elem_of_cons, elem_of_app, list_elem_of_fmap.
      rewrite elem_of_cons, list_elem_of_singleton.
      intros [->|[(c & -> & _)|[->| ->]]].
      * by left.
      * left. by rewrite lookup_insert_ne.
      * left. by rewrite lookup_insert_ne.
      * right. exists data. by rewrite lookup_insert_eq.
    + intros ->%list_elem_of_singleton. by left.
Qed.

End Merge.

(** ** The three layouts of a timestamp *)

Section Layouts.
Import Strptime.

Lemma list_bind_assoc {A B C} (f : A → list B) (g : B → list C) (l : list A) :
  (l ≫= f) ≫= g = l ≫= (λ x, f x ≫= g).
Proof.
  induction l as [|x l IH]; [done|]. rewrite !bind_cons, bind_app. by f_equal.
Qed.

Lemma list_fmap_of_bind {A B C} (f : A → list B) (h : B → C) (l : list A) :
  h <$> (l ≫= f) = l ≫= (λ x, h <$> f x).
Proof.
  induction l as [|x l IH]; [done|]. rewrite !bind_cons, fmap_app. by f_equal.
Qed.

Lemma list_bind_fmap_ret {A B} (h : A → B) (l : list A) :
  l ≫= (λ x, [h x]) = h <$> l.
Proof. induction l as [|x l IH]; [done|]. rewrite bind_cons, fmap_cons. by f_equal. Qed.

Lemma rmatch_tail (r : re) (a : ascii) (t : string) :
  accepts r a = false →
  ∀ s, rmatch r (s +:+ String a t) = push (String a t) <$> rmatch r s.
Proof.
  induction r as [c| |lo hi|r1 IH1 r2 IH2|r1 IH1 r2 IH2|name r1 IH1|];
    simpl; intros Hacc s.
  - destruct s as [|b s]; simpl.
    + change ("" +:+ String a t) with (String a t). simpl. by rewrite Hacc.
    + change (String b s +:+ String a t) with (String b (s +:+ String a t)).
      simpl. by destruct (Ascii.eqb (lower b) _).
  - destruct s as [|b s]; simpl.
    + change ("" +:+ String a t) with (String a t). simpl. by rewrite Hacc.
    + change (String b s +:+ String a t) with (String b (s +:+ String a t)).
      simpl. by destruct (is_digit b).
  - destruct s as [|b s]; simpl.
    + change ("" +:+ String a t) with (String a t). simpl. by rewrite Hacc.
    + change (String b s +:+ String a t) with (String b (s +:+ String a t)).
      simpl. by destruct (Strptime.in_range lo hi b).
  - apply orb_false_iff in Hacc as [H1 H2].
    rewrite IH1 by done. rewrite list_fmap_bind, list_fmap_of_bind.
    apply list_bind_ext; [|done]. intros [[c1 g1] s1]. simpl.
    rewrite IH2 by done. rewrite list_fmap_bind, list_fmap_of_bind.
    apply list_bind_ext; [|done]. by intros [[c2 g2] s2].
  - apply orb_false_iff in Hacc as [H1 H2].
    by rewrite IH1, IH2, fmap_app.
  - rewrite IH1 by done. rewrite <- !list_fmap_compose.
    apply list_fmap_ext. by intros _ [[c g] s'] _.
  - done.
Qed.

Lemma all_chars_app p s1 s2 :
  all_chars p (s1 +:+ s2) = all_chars p s1 && all_chars p s2.
Proof.
  induction s1 as [|a s1 IH]; [done|].
  change (String a s1 +:+ s2) with (String a (s1 +:+ s2)). simpl.
  by rewrite IH, andb_assoc.
Qed.

Lemma all_chars_impl (p q : ascii → bool) s :
  (∀ a, p a = true → q a = true) → all_chars p s = true → all_chars q s = true.
Proof.
  intros Hpq. induction s as [|a s IH]; [done|]. simpl.
  intros [? ?]%andb_true_iff. apply andb_true_iff. auto.
Qed.

Lemma string_app_assoc (s1 s2 s3 : string) :
  (s1 +:+ s2) +:+ s3 = s1 +:+ (s2 +:+ s3).
Proof.
  induction s1 as [|a s1 IH]; [done|].
  change (String a s1 +:+ s2) with (String a (s1 +:+ s2)).
  change (String a (s1 +:+ s2) +:+ s3) with (String a ((s1 +:+ s2) +:+ s3)).
  by rewrite IH.
Qed.

(** What a match consumed is a prefix of the text, made of characters the
    expression accepts. *)
Lemma rmatch_consumed (r : re) s c g rest :
  (c, g, rest) ∈ rmatch r s →
  s = c +:+ rest ∧ all_chars (accepts r) c = true.
Proof.
  revert s c g rest.
  induction r as [x| |lo hi|r1 IH1 r2 IH2|r1 IH1 r2 IH2|name r1 IH1|];
    simpl; intros s c g rest Hin.
  - destruct s as [|b s]; [by apply elem_of_nil in Hin|].
    destruct (Ascii.eqb (lower b) _) eqn:Hb; [|by apply elem_of_nil in Hin].
    apply list_elem_of_singleton in Hin. simplify_eq. simpl. by rewrite Hb.
  - destruct s as [|b s]; [by apply elem_of_nil in Hin|].
    destruct (is_digit b) eqn:Hb; [|by apply elem_of_nil in Hin].
    apply list_elem_of_singleton in Hin. simplify_eq. simpl. by rewrite Hb.
  - destruct s as [|b s]; [by apply elem_of_nil in Hin|].
    destruct (Strptime.in_range lo hi b) eqn:Hb; [|by apply elem_of_nil in Hin].
    apply list_elem_of_singleton in Hin. simplify_eq. simpl. by rewrite Hb.
  - apply list_elem_of_bind in Hin as ([[c1 g1] s1] & Hin & H1).
    apply list_elem_of_bind in Hin as ([[c2 g2] s2] & Hin & H2).
    apply list_elem_of_singleton in Hin. simplify_eq.
    apply IH1 in H1 as [-> Hc1]. apply IH2 in H2 as [-> Hc2].
    split; [by rewrite string_app_assoc|].
    rewrite all_chars_app. apply andb_true_iff. split.
    + eapply all_chars_impl; [|done]. intros a ->. done.
    + eapply all_chars_impl; [|done]. intros a ->. apply orb_true_r.
  - apply elem_of_app in Hin as [Hin|Hin].
    + apply IH1 in Hin as [-> Hc]. split; [done|].
      eapply all_chars_impl; [|done]. intros a ->. done.
    + apply IH2 in Hin as [-> Hc]. split; [done|].
      eapply all_chars_impl; [|done]. intros a ->. apply orb_true_r.
  - apply list_elem_of_fmap in Hin as ([[c1 g1] s1] & Heq & Hin).
    simplify_eq. by apply IH1 in Hin.
  - apply list_elem_of_singleton in Hin. by simplify_eq.
Qed.

Lemma rmatch_seq_app (l1 l2 : list re) (s : string) :
  rmatch (seq_re (l1 ++ l2)) s =
    '(c1, g1, s1) ← rmatch (seq_re l1) s;
    '(c2, g2, s2) ← rmatch (seq_re l2) s1;
    [(c1 +:+ c2, g1 ++ g2, s2)].
Proof.
  revert s. induction l1 as [|r l1 IH]; intros s.
  - simpl. rewrite app_nil_r. rewrite <- (list_fmap_id (rmatch _ _)) at 1.
    rewrite <- list_bind_fmap_ret. apply list_bind_ext; [|done].
    by intros [[c2 g2] s2].
  - cbn [app seq_re foldr rmatch]. fold (seq_re (l1 ++ l2)). fold (seq_re l1).
    rewrite list_bind_assoc. apply list_bind_ext; [|done].
    intros [[c1 g1] s1]. rewrite IH. rewrite !list_bind_assoc.
    apply list_bind_ext; [|done]. intros [[c2 g2] s2].
    rewrite bind_singleton.
    induction (rmatch (seq_re l2) s2) as [|[[c3 g3] s3] l IHl]; [done|].
    rewrite !bind_cons, bind_app, IHl, bind_singleton.
    by rewrite string_app_assoc, app_assoc.
Qed.

Lemma string_app_nil_r (s : string) : s +:+ "" = s.
Proof.
  induction s as [|a s IH]; [done|].
  change (String a s +:+ "") with (String a (s +:+ "")). by rewrite IH.
Qed.

Lemma rmatch_tail_ok (r : re) (t s : string) :
  tail_ok r t = true → rmatch r (s +:+ t) = push t <$> rmatch r s.
Proof.
  destruct t as [|a t]; simpl.
  - intros _. rewrite string_app_nil_r.
    rewrite <- (list_fmap_id (rmatch r s)) at 1.
    apply list_fmap_ext. intros _ [[c g] rest] _. unfold push. simpl.
    by rewrite string_app_nil_r.
  - intros Ha%negb_true_iff. by apply rmatch_tail.
Qed.

Lemma bind_all_nil {A B} (f : A → list B) (l : list A) :
  (∀ x, x ∈ l → f x = []) → l ≫= f = [].
Proof.
  induction l as [|x l IH]; intros Hf; [done|].
  rewrite bind_cons, Hf, IH; [done| |left]. intros y ?. apply Hf. by right.
Qed.

Lemma literal_rejects (x : ascii) (T : list re) (s1 t : string) (p : ascii → bool) :
  all_chars p s1 = true →
  (∀ a, p a = true → Ascii.eqb (lower a) (lower x) = false) →
  rmatch (seq_re (Chr x :: T)) t = [] →
  rmatch (seq_re (Chr x :: T)) (s1 +:+ t) = [].
Proof.
  intros Hs1 Hp Ht. destruct s1 as [|b s1]; [done|].
  apply andb_true_iff in Hs1 as [Hb _].
  change (String b s1 +:+ t) with (String b (s1 +:+ t)).
  cbn [seq_re foldr rmatch]. by rewrite (Hp b Hb).
Qed.

Section Suffix.
Variable P : list re.
Variables (s c : string) (g : list (string * string)).
Variable tl : list (string * list (string * string) * string).
Hypothesis Hfirst : rmatch (seq_re P) s = (c, g, "") :: tl.

Lemma first_match_all_accepted : all_chars (accepts (seq_re P)) s = true.
Proof.
  destruct (rmatch_consumed (seq_re P) s c g "") as [Hs Hc].
  { rewrite Hfirst. left. }
  rewrite string_app_nil_r in Hs. by subst.
Qed.

Lemma suffix_rejected (x : ascii) (T : list re) (t : string) :
  tail_ok (seq_re P) t = true →
  (∀ a, accepts (seq_re P) a = true → Ascii.eqb (lower a) (lower x) = false) →
  rmatch (seq_re (Chr x :: T)) t = [] →
  rmatch (seq_re (P ++ Chr x :: T)) (s +:+ t) = [].
Proof.
  intros Ht Hx Hnil. rewrite rmatch_seq_app, (rmatch_tail_ok _ _ _ Ht).
  rewrite list_fmap_bind. apply bind_all_nil. intros [[c1 g1] s1] Hin.
  unfold push, compose. cbn [fst snd].
  rewrite (literal_rejects x T s1 t (accepts (seq_re P))); [done| |done..].
  apply rmatch_consumed in Hin as [Hs _].
  pose proof first_match_all_accepted as Hall.
  rewrite Hs, all_chars_app in Hall. by apply andb_true_iff in Hall as [_ ?].
Qed.

Lemma suffix_accepted (T : list re) (t : string) :
  tail_ok (seq_re P) t = true →
  rmatch (seq_re T) t = [(t, [], "")] →
  ∃ c' tl', rmatch (seq_re (P ++ T)) (s +:+ t) = (c', g, "") :: tl'.
Proof.
  intros Ht HT. rewrite rmatch_seq_app, (rmatch_tail_ok _ _ _ Ht), Hfirst.
  rewrite fmap_cons, bind_cons. unfold push at 1. simpl.
  change ("" +:+ t) with t. rewrite HT, bind_singleton, app_nil_r.
  by eexists _, _.
Qed.

End Suffix.

Lemma pattern_naive : pattern "%Y-%m-%dT%H:%M:%S" = Some naive_pieces.
Proof. reflexivity. Qed.

Lemma pattern_zulu :
  pattern "%Y-%m-%dT%H:%M:%SZ" = Some (naive_pieces ++ [Chr "Z"]).
Proof. reflexivity. Qed.

Lemma pattern_offset :
  pattern "%Y-%m-%dT%H:%M:%S+00:00" =
    Some (naive_pieces ++ [Chr "+"; Chr "0"; Chr "0"; Chr ":"; Chr "0"; Chr "0"]).
Proof. reflexivity. Qed.

(** No character of a date-time without suffix is a 'z' or a '+'. *)
Lemma naive_rejects_suffix_chars (a : ascii) :
  accepts (seq_re naive_pieces) a = true →
  Ascii.eqb (lower a) (lower "Z") = false
  ∧ Ascii.eqb (lower a) (lower "+") = false.
Proof.
  destruct a as [[] [] [] [] [] [] [] []]; vm_compute; intros H;
    first [discriminate H | split; reflexivity].
Qed.

Lemma strptime_first_match fmt rs s c g tl :
  pattern fmt = Some rs → rmatch (seq_re rs) s = (c, g, "") :: tl →
  strptime (VStr s) fmt = datetime_of_groups g.
Proof. intros Hp Hm. unfold strptime. by rewrite Hp, Hm. Qed.

Lemma strptime_no_match fmt rs s :
  pattern fmt = Some rs → rmatch (seq_re rs) s = [] →
  strptime (VStr s) fmt = Raise ValueError.
Proof. intros Hp Hm. unfold strptime. by rewrite Hp, Hm. Qed.

Lemma strptime_naive_inv s dt :
  strptime (VStr s) "%Y-%m-%dT%H:%M:%S" = Ok dt →
  ∃ c g tl, rmatch (seq_re naive_pieces) s = (c, g, "") :: tl
    ∧ datetime_of_groups g = Ok dt.
Proof.
  unfold strptime. rewrite pattern_naive.
  destruct (rmatch (seq_re naive_pieces) s) as [|[[c g] [|b rest]] tl];
    [done| |done].
  intros Hg. by exists c, g, tl.
Qed.

Lemma ts_parse_suffixes (s : string) (dt : datetime) :
  strptime (VStr s) "%Y-%m-%dT%H:%M:%S" = Ok dt →
  ts_parse (VStr s) = Ok (Some dt)
  ∧ ts_parse (VStr (s +:+ "Z")) = Ok (Some dt)
  ∧ ts_parse (VStr (s +:+ "+00:00")) = Ok (Some dt).
Proof.
  intros Hnaive.
  destruct (strptime_naive_inv s dt Hnaive) as (c & g & tl & Hfirst & Hg).
  pose proof (λ a H, proj1 (naive_rejects_suffix_chars a H)) as HZ.
  pose proof (λ a H, proj2 (naive_rejects_suffix_chars a H)) as Hplus.
  unfold ts_parse, ts_formats. cbn [ts_parse_from]. split_and!.
  - assert (strptime (VStr s) "%Y-%m-%dT%H:%M:%S+00:00" = Raise ValueError) as ->.
    { rewrite <- (string_app_nil_r s).
      apply (strptime_no_match _ _ _ pattern_offset). by eapply suffix_rejected. }
    assert (strptime (VStr s) "%Y-%m-%dT%H:%M:%SZ" = Raise ValueError) as ->.
    { rewrite <- (string_app_nil_r s).
      apply (strptime_no_match _ _ _ pattern_zulu). by eapply suffix_rejected. }
    by rewrite Hnaive.
  - rewrite (strptime_no_match _ _ _ pattern_offset)
      by (by eapply suffix_rejected).
    destruct (suffix_accepted naive_pieces s c g tl Hfirst [Chr "Z"] "Z")
      as (c' & tl' & Hm); [done..|].
    by rewrite (strptime_first_match _ _ _ _ _ _ pattern_zulu Hm), Hg.
  - destruct (suffix_accepted naive_pieces s c g tl Hfirst
                [Chr "+"; Chr "0"; Chr "0"; Chr ":"; Chr "0"; Chr "0"] "+00:00")
      as (c' & tl' & Hm); [done..|].
    by rewrite (strptime_first_match _ _ _ _ _ _ pattern_offset Hm), Hg.
Qed.

End Layouts.

(** C10: when a date-time written without zone suffix parses, that
    text and the same text followed by 'Z' or by '+00:00' all parse, with
    [ts_parse], to the same datetime; so a leaderboard record or a weather
    observation carries the same time whichever of the three texts it
    holds, and the time-range and weather handlers answer the same
    whichever of the three texts a bound or a target is given as. *)
Theorem zone_suffix_same_instant (s : string) (dt : datetime) :
  strptime (VStr s) "%Y-%m-%dT%H:%M:%S" = Ok dt →
  ∀ x, x ∈ [s; s +:+ "Z"; s +:+ "+00:00"] →
    ts_parse (VStr x) = Ok (Some dt)
    ∧ (∀ r : gmap string value,
         start_date (VDict (<["start_date" := VStr x]> r)) = Some dt)
    ∧ (∀ p : gmap string value,
         observation
           (VDict {[ "properties" := VDict (<["timestamp" := VStr x]> p) ]})
         = Some (VDict (<["timestamp" := VStr x]> p), dt))
    ∧ (∀ fs ts, leaders_timerange fs x ts = leaders_timerange fs s ts
                ∧ leaders_timerange fs ts x = leaders_timerange fs ts s)
    ∧ (∀ fs, weather_at_time fs x = weather_at_time fs s).
Proof.
  intros Hnaive.
  destruct (ts_parse_suffixes s dt Hnaive) as (Hs & HZ & Hoff).
  assert (∀ x, x ∈ [s; s +:+ "Z"; s +:+ "+00:00"] →
            ts_parse (VStr x) = Ok (Some dt)) as Hall.
  { intros x Hx. repeat (apply elem_of_cons in Hx as [->|Hx]; [done|]).
    by apply elem_of_nil in Hx. }
  intros x Hx. specialize (Hall x Hx). split_and!.
  - done.
  - intros r. unfold start_date, getitem. by rewrite lookup_insert_eq, Hall.
  - intros p. unfold observation, getitem.
    by rewrite lookup_singleton_eq, lookup_insert_eq, Hall.
  - intros fs ts. unfold leaders_timerange. by rewrite Hall, Hs.
  - intros fs. unfold weather_at_time. by rewrite Hall, Hs.
Qed.

(** ** The properties on the sample data *)

(** The specification's example: one record, inside the queried range. *)
Lemma leaders_timerange_exact_sample :
  ∃ keys records,
    leaders_timerange Samples.served
      "2023-12-31T00:00:00Z" "2024-01-02T00:00:00Z" = Ok (VList records)
    ∧ Forall2 (λ k r, Samples.leaderboard !! k = Some r) keys records
    ∧ StronglySorted String.le keys ∧ NoDup keys
    ∧ (∀ k, k ∈ keys ↔
         ∃ r dt, Samples.leaderboard !! k = Some r ∧ start_date r = Some dt
           ∧ Datetime.leb (mk_datetime 2023 12 31 0 0 0) dt = true
           ∧ Datetime.leb dt (mk_datetime 2024 1 2 0 0 0) = true)
    ∧ ∀ py_repr,
        (∀ k e, Samples.leaderboard !! k = Some (VDict e) →
                composite_key py_repr e = k) →
        Forall2 (λ k r, ∃ e, r = VDict e ∧ composite_key py_repr e = k)
          keys records.
Proof.
  apply (proj1 (leaders_timerange_exact Samples.served
                  "2023-12-31T00:00:00Z" "2024-01-02T00:00:00Z")).
  - vm_compute. reflexivity.
  - vm_compute. reflexivity.
  - vm_compute. reflexivity.
  - vm_compute. reflexivity.
  - unfold Samples.leaderboard. intros k r [_ <-]%lookup_singleton_Some.
    vm_compute. eauto.
Defined.

Example leaders_timerange_inside :
  leaders_timerange Samples.served "2023-12-31T00:00:00Z" "2024-01-02T00:00:00Z"
  = Ok (VList [VDict Samples.alice]).
Proof. vm_compute. reflexivity. Qed.

Example leaders_timerange_disjoint :
  leaders_timerange Samples.served "2024-02-01T00:00:00" "2024-02-02T00:00:00"
  = Ok (VList []).
Proof. vm_compute. reflexivity. Qed.

Example leaders_timerange_reversed :
  respond (leaders_timerange Samples.served
             "2024-01-02T00:00:00Z" "2023-12-31T00:00:00Z")
  = mk_response 400
      (VDict {[ "message" := VStr "Error parsing timestamp parameters" ]}).
Proof. vm_compute. reflexivity. Qed.

(** Merging the sample batch: the later entry for alice replaces the
    stored one, and bob is added under a key with an empty rank. *)
Lemma merge_last_write_wins_sample :
  ∃ E', UpdateLeaderboard.merge_files (λ _, "") Samples.disk
          (VDict Samples.leaderboard) ["new.json"] = Ok (VDict E')
    ∧ ∀ k, E' !! k =
        match last_with_key (λ _, "") k
                (concat [[Samples.alice_again; Samples.bob]]) with
        | Some e => Some (VDict e)
        | None => Samples.leaderboard !! k
        end.
Proof.
  apply (merge_last_write_wins (λ _, "") Samples.disk ["new.json"]
           [[Samples.alice_again; Samples.bob]] Samples.leaderboard).
  repeat constructor. eexists. split; vm_compute; reflexivity.
Defined.

Example merge_files_sample :
  UpdateLeaderboard.merge_files (λ _, "") Samples.disk
    (VDict Samples.leaderboard) ["new.json"]
  = Ok (VDict {[ "2024-01-01T00:00:00Z+alice+1" := VDict Samples.alice_again;
                 "2024-03-05T08:30:00+bob+" := VDict Samples.bob ]}).
Proof. vm_compute. reflexivity. Qed.

(** Against C6 as stated: a batch file is not valid JSON, yet the run
    fails with the FileNotFoundError of the file named before it, not with
    a JSONDecodeError. *)
Lemma merge_missing_file_before_malformed :
  Samples.disk !! "broken.json" = Some NotJson
  ∧ UpdateLeaderboard.main (λ _, "") Samples.disk
      ["absent.json"; "broken.json"] "tmpk3x9q_2b" []
    = UpdateLeaderboard.mk_run [Samples.disk] (Raise FileNotFoundError)
  ∧ UpdateLeaderboard.outcome
      (UpdateLeaderboard.main (λ _, "") Samples.disk
         ["absent.json"; "broken.json"] "tmpk3x9q_2b" [])
    ≠ Raise JSONDecodeError.
Proof.
  split_and!.
  - vm_compute. reflexivity.
  - unfold UpdateLeaderboard.main.
    assert (UpdateLeaderboard.merge_files (λ _, "") Samples.disk
              (UpdateLeaderboard.load_existing Samples.disk)
              ["absent.json"; "broken.json"] = Raise FileNotFoundError) as ->
      by (vm_compute; reflexivity).
    done.
  - vm_compute. discriminate.
Qed.

(** The run of that sample ends with the error of its first failing
    file, and writes nothing. *)
Lemma merge_failure_writes_nothing_sample :
  UpdateLeaderboard.main (λ _, "") Samples.disk
    ["absent.json"; "broken.json"] "tmpk3x9q_2b" []
  = UpdateLeaderboard.mk_run [Samples.disk] (Raise FileNotFoundError).
Proof.
  apply (proj1 (proj2 (proj2 (proj2
           (merge_failure_writes_nothing (λ _, "") Samples.disk
              ["absent.json"; "broken.json"] "tmpk3x9q_2b" []))))
           [] "absent.json" ["broken.json"] (VDict Samples.leaderboard)
           FileNotFoundError).
  - reflexivity.
  - vm_compute. reflexivity.
  - vm_compute. reflexivity.
Defined.

(** New Year 2024 with the 'Z' suffix, against the text without suffix. *)
Lemma zone_suffix_same_instant_sample :
  ts_parse (VStr ("2024-01-01T00:00:00" +:+ "Z"))
  = Ok (Some (mk_datetime 2024 1 1 0 0 0))
  ∧ (∀ r : gmap string value,
       start_date
         (VDict (<["start_date" := VStr ("2024-01-01T00:00:00" +:+ "Z")]> r))
       = Some (mk_datetime 2024 1 1 0 0 0))
  ∧ (∀ p : gmap string value,
       observation
         (VDict {[ "properties" :=
             VDict (<["timestamp" := VStr ("2024-01-01T00:00:00" +:+ "Z")]> p) ]})
       = Some (VDict (<["timestamp" := VStr ("2024-01-01T00:00:00" +:+ "Z")]> p),
               mk_datetime 2024 1 1 0 0 0))
  ∧ (∀ fs ts,
       leaders_timerange fs ("2024-01-01T00:00:00" +:+ "Z") ts
       = leaders_timerange fs "2024-01-01T00:00:00" ts
       ∧ leaders_timerange fs ts ("2024-01-01T00:00:00" +:+ "Z")
         = leaders_timerange fs ts "2024-01-01T00:00:00")
  ∧ (∀ fs, weather_at_time fs ("2024-01-01T00:00:00" +:+ "Z")
           = weather_at_time fs "2024-01-01T00:00:00").
Proof.
  apply (zone_suffix_same_instant "2024-01-01T00:00:00"
           (mk_datetime 2024 1 1 0 0 0)).
  - vm_compute. reflexivity.
  - apply list_elem_of_further, list_elem_of_here.
Defined.

Example ts_parse_three_layouts :
  ts_parse (VStr "2024-01-01T00:00:00+00:00") = ts_parse (VStr "2024-01-01T00:00:00Z")
  ∧ ts_parse (VStr "2024-01-01T00:00:00Z") = ts_parse (VStr "2024-01-01T00:00:00")
  ∧ ts_parse (VStr "2024-01-01T00:00:00") = Ok (Some (mk_datetime 2024 1 1 0 0 0))
  ∧ ts_parse (VStr "2024-01-01 00:00:00") = Ok None
  ∧ ts_parse (VInt 20240101) = Ok None.
Proof. vm_compute. auto. Qed.

(** * Further properties *)

Import Further.

(** ** Further properties of restapi.py *)

(** X1: [ts_parse] of a value that is not a text (a number, null, a list,
    an object) is [None]: the TypeError of [strptime] is swallowed like
    any other. *)
Theorem ts_parse_not_text (v : value) :
  (∀ s, v ≠ VStr s) → ts_parse v = Ok None.
Proof. intros Hv. destruct v; try done. by destruct (Hv s). Qed.

Lemma timerange_loop_Ok_inv (D : gmap string value) lo hi keys retlist out :
  timerange_loop (VDict D) lo hi keys retlist = Ok out →
  ∀ k, k ∈ keys → ∃ r, D !! k = Some r ∧ is_Some (start_date r).
Proof.
  revert retlist. induction keys as [|k keys IH]; intros retlist Hloop k' Hin.
  - by apply elem_of_nil in Hin.
  - cbn [timerange_loop] in Hloop.
    apply bind_Ok_inv in Hloop as (r & Hr & Hloop).
    apply bind_Ok_inv in Hloop as (sd & Hsd & Hloop).
    apply bind_Ok_inv in Hloop as (dt & Hdt & Hloop).
    apply bind_Ok_inv in Hloop as (keep & Hkeep & Hloop).
    apply elem_of_cons in Hin as [->|Hin]; [|by eapply IH].
    exists r. split.
    + simpl in Hr. by destruct (D !! k); simplify_eq.
    + unfold start_date. rewrite Hsd, Hdt.
      destruct dt as [t|]; [by eexists | done].
Qed.

Lemma sorted_keys_dict (D : gmap string value) (k : string) :
  k ∈ merge_sort String.le (map_to_list D).*1 ↔ is_Some (D !! k).
Proof.
  rewrite merge_sort_Permutation, list_elem_of_fmap. split.
  - intros ([k' r] & -> & Hin%elem_of_map_to_list). by exists r.
  - intros [r Hr]. exists (k, r). split; [done|]. by apply elem_of_map_to_list.
Qed.

(** X2: the time-range handler skips no record: when it answers with a
    list, every record of the leaderboard has a [start_date] that parses
    (one that lacks it, or holds one that does not parse, makes the whole
    request fail). *)
Theorem leaders_timerange_skips_nothing (fs : filesystem) (ts1 ts2 : string)
    (D : gmap string value) (answer : value) :
  fs !! leaderboard_file = Some (Json (VDict D)) →
  leaders_timerange fs ts1 ts2 = Ok answer →
  ∀ k r, D !! k = Some r → is_Some (start_date r).
Proof.
  intros Hfs Hok k r Hr. unfold leaders_timerange in Hok.
  apply bind_Ok_inv in Hok as (dt1 & _ & Hok).
  apply bind_Ok_inv in Hok as (dt2 & _ & Hok).
  destruct dt1 as [t1|], dt2 as [t2|]; try done.
  destruct (Datetime.ltb t2 t1); [done|].
  unfold read_json_dict, load_json in Hok. rewrite Hfs in Hok. simpl in Hok.
  apply bind_Ok_inv in Hok as (out & Hloop & _).
  destruct (timerange_loop_Ok_inv _ _ _ _ _ _ Hloop k) as (r' & Hr' & Hsd).
  { apply sorted_keys_dict. by exists r. }
  by simplify_eq.
Qed.

Lemma cmp_fields_trans_le (a b c : list Z) :
  Datetime.cmp_fields a b ≠ Gt → Datetime.cmp_fields b c ≠ Gt →
  Datetime.cmp_fields a c ≠ Gt.
Proof.
  revert b c. induction a as [|x a IH]; intros [|y b] [|z c]; simpl; try done.
  destruct (Z.compare_spec x y), (Z.compare_spec y z), (Z.compare_spec x z);
    try done; try lia; subst; eauto.
Qed.

Lemma leb_trans (a b c : datetime) :
  Datetime.leb a b = true → Datetime.leb b c = true → Datetime.leb a c = true.
Proof.
  unfold Datetime.leb, Datetime.cmp. intros Hab Hbc.
  pose proof (cmp_fields_trans_le (Datetime.fields a) (Datetime.fields b)
                (Datetime.fields c)) as Htrans.
  destruct (Datetime.cmp_fields (Datetime.fields a) (Datetime.fields b));
    destruct (Datetime.cmp_fields (Datetime.fields b) (Datetime.fields c));
    destruct (Datetime.cmp_fields (Datetime.fields a) (Datetime.fields c));
    try done; by destruct Htrans.
Qed.

Lemma sublist_filter_impl {A} (P Q : A → Prop) `{!∀ x, Decision (P x)}
    `{!∀ x, Decision (Q x)} (l : list A) :
  (∀ x, P x → Q x) → filter P l `sublist_of` filter Q l.
Proof.
  intros HPQ. induction l as [|x l IH]; [done|].
  rewrite !filter_cons. destruct (decide (P x)) as [HP|HP].
  - rewrite decide_True by auto. by constructor.
  - destruct (decide (Q x)); [by constructor | done].
Qed.

Lemma sublist_omap {A B} (f : A → option B) (l1 l2 : list A) :
  l1 `sublist_of` l2 → omap f l1 `sublist_of` omap f l2.
Proof.
  induction 1 as [|x l1 l2 _ IH|x l1 l2 _ IH]; simpl; [done| |].
  - destruct (f x); [by constructor | done].
  - destruct (f x); [by constructor | done].
Qed.

Lemma leaders_timerange_value (fs : filesystem) ts1 ts2 lo hi
    (D : gmap string value) :
  ts_parse (VStr ts1) = Ok (Some lo) → ts_parse (VStr ts2) = Ok (Some hi) →
  Datetime.leb lo hi = true →
  fs !! leaderboard_file = Some (Json (VDict D)) →
  (∀ k r, D !! k = Some r → is_Some (start_date r)) →
  leaders_timerange fs ts1 ts2 =
    Ok (VList (omap (D !!.)
                 (filter (λ k, selected lo hi D k = true)
                    (merge_sort String.le (map_to_list D).*1)))).
Proof.
  intros Hlo Hhi Hle Hfs Hdates.
  unfold leaders_timerange. rewrite Hlo, Hhi. simpl.
  rewrite leb_iff_not_ltb in Hle. apply negb_true_iff in Hle. rewrite Hle.
  unfold read_json_dict, load_json. rewrite Hfs. simpl.
  rewrite timerange_loop_filter; [done|].
  intros k [r Hr]%sorted_keys_dict. exists r. eauto.
Qed.

(** X3: widening the time range keeps every record: with
    [lo' ≤ lo ≤ hi ≤ hi'], the records returned for [lo, hi] are, in the
    same order, among those returned for [lo', hi']. *)
Theorem leaders_timerange_widening (fs : filesystem) (ts1 ts2 ts1' ts2' : string)
    (lo hi lo' hi' : datetime) (D : gmap string value) :
  ts_parse (VStr ts1) = Ok (Some lo) → ts_parse (VStr ts2) = Ok (Some hi) →
  ts_parse (VStr ts1') = Ok (Some lo') → ts_parse (VStr ts2') = Ok (Some hi') →
  Datetime.leb lo' lo = true → Datetime.leb lo hi = true →
  Datetime.leb hi hi' = true →
  fs !! leaderboard_file = Some (Json (VDict D)) →
  (∀ k r, D !! k = Some r → is_Some (start_date r)) →
  ∃ narrow wide,
    leaders_timerange fs ts1 ts2 = Ok (VList narrow)
    ∧ leaders_timerange fs ts1' ts2' = Ok (VList wide)
    ∧ narrow `sublist_of` wide.
Proof.
  intros Hlo Hhi Hlo' Hhi' Hle1 Hle2 Hle3 Hfs Hdates.
  eexists _, _. split_and!.
  - by apply (leaders_timerange_value fs ts1 ts2 lo hi D).
  - apply (leaders_timerange_value fs ts1' ts2' lo' hi' D); try done.
    eauto using leb_trans.
  - apply sublist_omap, sublist_filter_impl. intros k. unfold selected.
    destruct (D !! k) as [r|]; [|done]. destruct (start_date r) as [dt|]; [|done].
    intros [H1 H2]%andb_true_iff. apply andb_true_iff.
    eauto using leb_trans.
Qed.

Lemma NoDup_fmap_elem_inj {A B} (f : A → B) (l : list A) (x y : A) :
  NoDup (f <$> l) → x ∈ l → y ∈ l → f x = f y → x = y.
Proof.
  induction l as [|a l IH]; [by intros _ ?%elem_of_nil|].
  rewrite fmap_cons, NoDup_cons. intros [Ha Hl] Hx Hy Hxy.
  apply elem_of_cons in Hx as [->|Hx]; apply elem_of_cons in Hy as [->|Hy].
  - done.
  - destruct Ha. rewrite Hxy. by apply list_elem_of_fmap_2.
  - destruct Ha. rewrite <- Hxy. by apply list_elem_of_fmap_2.
  - by apply IH.
Qed.

Lemma weather_find_features t (m : gmap string value) (obs : list value) st :
  m !! "features" = Some (VList obs) →
  weather_loop (Some t) (None, VNone) obs = Ok st →
  weather_find (Some t) (VDict m) = Ok st.2.
Proof. intros Hm Hloop. unfold weather_find. simpl. rewrite Hm. simpl. by rewrite Hloop. Qed.

(** X4: when the observations all parse and lie at pairwise different
    distances from the target, [weather_find] returns the same properties
    whatever the order of the observations. *)
Theorem weather_find_any_order (t : datetime) (m1 m2 : gmap string value)
    (obs1 obs2 : list value) :
  m1 !! "features" = Some (VList obs1) →
  m2 !! "features" = Some (VList obs2) →
  obs1 ≡ₚ obs2 →
  Forall (λ event, is_Some (observation event)) obs1 →
  NoDup (obs_distance t <$> obs1) →
  weather_find (Some t) (VDict m1) = weather_find (Some t) (VDict m2).
Proof.
  intros Hm1 Hm2 Hperm Hall1 Hdist.
  assert (Forall (λ event, is_Some (observation event)) obs2) as Hall2
    by (by rewrite <- Hperm).
  assert (obs1 = [] ∨ obs1 ≠ []) as [->|Hne1] by (destruct obs1; auto).
  { apply Permutation_nil_l in Hperm as <-.
    by rewrite (weather_find_features t m1 [] (None, VNone)),
               (weather_find_features t m2 [] (None, VNone)). }
  assert (obs2 ≠ []) as Hne2.
  { intros ->. by apply Permutation_nil_r in Hperm. }
  destruct (weather_loop_nearest t obs1 Hall1 Hne1)
    as (i1 & e1 & p1 & d1 & Hi1 & He1 & Hloop1 & Hmin1).
  destruct (weather_loop_nearest t obs2 Hall2 Hne2)
    as (i2 & e2 & p2 & d2 & Hi2 & He2 & Hloop2 & Hmin2).
  rewrite (weather_find_features t m1 obs1 _ Hm1 Hloop1).
  rewrite (weather_find_features t m2 obs2 _ Hm2 Hloop2). simpl.
  assert (e1 ∈ obs1) as Hin1 by (by eapply list_elem_of_lookup_2).
  assert (e2 ∈ obs1) as Hin2.
  { rewrite Hperm. by eapply list_elem_of_lookup_2. }
  assert (e1 = e2) as Heq.
  { apply (NoDup_fmap_elem_inj (obs_distance t) obs1); [done..|].
    unfold obs_distance. rewrite He1, He2. simpl. f_equal.
    apply list_elem_of_lookup_1 in Hin2 as [j2 Hj2].
    rewrite Hperm in Hin1. apply list_elem_of_lookup_1 in Hin1 as [j1 Hj1].
    destruct (Hmin1 j2 e2 p2 d2 Hj2 He2) as [H12 _].
    destruct (Hmin2 j1 e1 p1 d1 Hj1 He1) as [H21 _]. lia. }
  subst e2. rewrite He1 in He2. by simplify_eq.
Qed.

(** X5: the weather handler answers 400 to a timestamp that does not
    parse, whatever the files hold; with a timestamp that parses it is
    [weather_find] on the weather file, which gives null with status 200
    for an empty list of observations; and a weather file that is missing
    or not JSON raises the loader's error. *)
Theorem weather_at_time_answers (fs : filesystem) (ts : string) :
  (ts_parse (VStr ts) = Ok None →
     respond (weather_at_time fs ts)
     = mk_response 400
         (VDict {[ "message" := VStr "Error parsing timestamp parameter" ]}))
  ∧ (∀ t (m : gmap string value),
       ts_parse (VStr ts) = Ok (Some t) →
       fs !! weather_file = Some (Json (VDict m)) →
       weather_at_time fs ts = weather_find (Some t) (VDict m)
       ∧ (m !! "features" = Some (VList []) →
          respond (weather_at_time fs ts) = mk_response 200 VNone))
  ∧ (∀ t, ts_parse (VStr ts) = Ok (Some t) →
       (fs !! weather_file = None →
        weather_at_time fs ts = Raise FileNotFoundError)
       ∧ (fs !! weather_file = Some NotJson →
          weather_at_time fs ts = Raise JSONDecodeError)).
Proof.
  unfold weather_at_time, read_json_dict, load_json. split_and!.
  - by intros ->.
  - intros t m -> ->. simpl. split; [done|]. intros Hm.
    unfold weather_find. simpl. by rewrite Hm.
  - intros t ->. split; by intros ->.
Qed.

(** X6: the dictionary an [InvalidUsage] is answered with holds the
    message under 'message', even when the payload has that key, and the
    payload's other keys unchanged; the status code is 400 unless one is
    given; without payload it is the answer [respond] gives. *)
Theorem invalid_usage_to_dict (message : string) (code : option Z)
    (payload : option (gmap string value)) :
  let error := Usage.init message code payload in
  Usage.to_dict error !! "message" = Some (VStr message)
  ∧ (∀ k, k ≠ "message" →
       Usage.to_dict error !! k = (default ∅ payload) !! k)
  ∧ Usage.status_code error = default 400%Z code
  ∧ (payload = None →
     Usage.handle error = respond (Raise (InvalidUsage message (default 400%Z code)))).
Proof.
  simpl. unfold Usage.to_dict, Usage.init. simpl. split_and!.
  - apply lookup_insert_eq.
  - intros k Hk. rewrite lookup_insert_ne by done. by destruct payload.
  - by destruct code.
  - intros ->. unfold Usage.handle, Usage.to_dict. simpl.
    unfold handle_invalid_usage. destruct code; simpl; by rewrite insert_empty.
Qed.

(** ** The temperature handler *)

Section Temperature.
Variable py_float : string → option spec_float.
Variable int_float_compare : Z → spec_float → option comparison.

Notation leaders_temprange := (TempRange.leaders_temprange py_float int_float_compare).
Notation temprange_loop := (TempRange.temprange_loop int_float_compare).
Notation keeps := (keeps int_float_compare).
Notation kept := (kept int_float_compare).

Lemma temprange_loop_Ok_inv (D : gmap string value) (W : value) t1 t2 keys retlist out :
  temprange_loop (VDict D) W t1 t2 keys retlist = Ok out →
  out = retlist
        ++ omap (D !!.) (filter (λ k, kept (VDict D) W t1 t2 k = true) keys)
  ∧ ∀ k, k ∈ keys →
      keeps (VDict D) W t1 t2 k = Ok (kept (VDict D) W t1 t2 k)
      ∧ is_Some (D !! k).
Proof.
  revert retlist. induction keys as [|k keys IH]; intros retlist Hloop.
  - simpl in Hloop. simplify_eq. rewrite app_nil_r. split; [done|].
    by intros k ?%elem_of_nil.
  - cbn [TempRange.temprange_loop] in Hloop.
    apply bind_Ok_inv in Hloop as (r & Hr & Hloop).
    apply bind_Ok_inv in Hloop as (sd & Hsd & Hloop).
    apply bind_Ok_inv in Hloop as (dt & Hdt & Hloop).
    apply bind_Ok_inv in Hloop as (w & Hw & Hloop).
    apply bind_Ok_inv in Hloop as (tv & Htv & Hloop).
    apply bind_Ok_inv in Hloop as (temp & Htemp & Hloop).
    apply bind_Ok_inv in Hloop as (keep & Hkeep & Hloop).
    assert (keeps (VDict D) W t1 t2 k = Ok keep) as Hkeeps.
    { unfold Further.keeps, temperature_of. rewrite Hr. simpl. rewrite Hsd. simpl.
      rewrite Hdt. simpl. rewrite Hw. simpl. rewrite Htv. simpl.
      by rewrite Htemp. }
    assert (kept (VDict D) W t1 t2 k = keep) as Hkept.
    { unfold Further.kept. rewrite Hkeeps. by destruct keep. }
    assert (D !! k = Some r) as HDk.
    { simpl in Hr. by destruct (D !! k); simplify_eq. }
    destruct (IH _ Hloop) as [-> Hrest]. split.
    + rewrite filter_cons, Hkept. destruct keep; simpl.
      * by rewrite HDk, <- app_assoc.
      * done.
    + intros k' [->|Hin]%elem_of_cons; [|by apply Hrest].
      rewrite Hkept. split; [done | by eexists].
Qed.

(** X7: when the temperature handler answers with a list, both
    bounds are floats, the weather file loaded, and the list holds the
    records of a strictly ascending run of leaderboard keys: a key is in it
    exactly when the loop's test on its record (the temperature of the
    observation nearest to its start within the bounds) is true, and the
    test succeeded for every record. *)
Theorem leaders_temprange_selection (fs : filesystem) (temp1 temp2 : string)
    (D : gmap string value) (answer : value) :
  fs !! leaderboard_file = Some (Json (VDict D)) →
  leaders_temprange fs temp1 temp2 = Ok answer →
  ∃ t1 t2 W keys records,
    py_float temp1 = Some t1 ∧ py_float temp2 = Some t2
    ∧ fs !! weather_file = Some (Json W)
    ∧ answer = VList records
    ∧ Forall2 (λ k r, D !! k = Some r) keys records
    ∧ StronglySorted String.le keys ∧ NoDup keys
    ∧ ∀ k, is_Some (D !! k) →
        keeps (VDict D) W t1 t2 k = Ok (bool_decide (k ∈ keys)).
Proof.
  intros Hfs Hok. unfold TempRange.leaders_temprange in Hok.
  destruct (py_float temp1) as [t1|]; [|done].
  destruct (py_float temp2) as [t2|]; [|done].
  destruct (SFltb t2 t1); [done|].
  unfold read_json_dict, load_json in Hok. rewrite Hfs in Hok. simpl in Hok.
  destruct (fs !! weather_file) as [[W|]|]; try done. simpl in Hok.
  apply bind_Ok_inv in Hok as (out & Hloop & Hout).
  apply temprange_loop_Ok_inv in Hloop as [-> Hkeys]. simpl in Hout.
  set (sorted := merge_sort String.le (map_to_list D).*1) in *.
  exists t1, t2, W, (filter (λ k, kept (VDict D) W t1 t2 k = true) sorted).
  eexists. split_and!; [done..|by simplify_eq| | | |].
  - apply omap_lookup_Forall2.
    intros k [_ Hk]%list_elem_of_filter. by apply sorted_keys_dict.
  - apply StronglySorted_filter, StronglySorted_merge_sort; apply _.
  - apply NoDup_filter. unfold sorted. rewrite merge_sort_Permutation.
    apply NoDup_fst_map_to_list.
  - intros k Hk%sorted_keys_dict. destruct (Hkeys k Hk) as [-> _]. f_equal.
    destruct (kept (VDict D) W t1 t2 k) eqn:Hkept.
    + rewrite bool_decide_eq_true_2; [done|]. by apply list_elem_of_filter.
    + rewrite bool_decide_eq_false_2; [done|].
      intros [? _]%list_elem_of_filter. congruence.
Qed.

(** X8: the temperature handler answers 400 when a bound is not a
    float or the second bound is below the first, whatever the files hold;
    with valid bounds, an empty leaderboard gives the empty list, and a
    leaderboard with records, each with a [start_date] field, against a
    weather file with no observation fails with a TypeError. *)
Theorem leaders_temprange_edges (fs : filesystem) (temp1 temp2 : string) :
  ((py_float temp1 = None ∨ py_float temp2 = None) →
     leaders_temprange fs temp1 temp2
     = Raise (InvalidUsage "Invalid temperature parameter" 400))
  ∧ (∀ t1 t2, py_float temp1 = Some t1 → py_float temp2 = Some t2 →
       (SFltb t2 t1 = true →
          leaders_temprange fs temp1 temp2
          = Raise (InvalidUsage
                     "First temp must be less than or equal to second" 400))
       ∧ (SFltb t2 t1 = false →
          (∀ W, fs !! leaderboard_file = Some (Json (VDict ∅)) →
                fs !! weather_file = Some (Json W) →
                leaders_temprange fs temp1 temp2 = Ok (VList []))
          ∧ (∀ (D W : gmap string value),
               fs !! leaderboard_file = Some (Json (VDict D)) →
               fs !! weather_file = Some (Json (VDict W)) →
               D ≠ ∅ →
               (∀ k r, D !! k = Some r →
                  ∃ e : gmap string value,
                    r = VDict e ∧ is_Some (e !! "start_date")) →
               W !! "features" = Some (VList []) →
               leaders_temprange fs temp1 temp2 = Raise TypeError))).
Proof.
  unfold TempRange.leaders_temprange. split.
  - intros [-> | ->]; [done|]. by destruct (py_float temp1).
  - intros t1 t2 -> ->. split; [by intros ->|]. intros ->.
    unfold read_json_dict, load_json. split.
    + intros W -> ->. simpl. by rewrite map_to_list_empty.
    + intros D W -> -> Hne Hrecords Hfeatures. simpl.
      destruct (merge_sort String.le (map_to_list D).*1) as [|k keys] eqn:Hsorted.
      { apply map_choose in Hne as (k & r & Hr). exfalso.
        assert (k ∈ merge_sort String.le (map_to_list D).*1) as Hin
          by (apply sorted_keys_dict; by exists r).
        rewrite Hsorted in Hin. by apply elem_of_nil in Hin. }
      assert (is_Some (D !! k)) as [r Hr].
      { apply sorted_keys_dict. rewrite Hsorted. left. }
      destruct (Hrecords k r Hr) as (e & -> & sd & Hsd).
      cbn [TempRange.temprange_loop getitem]. rewrite Hr. simpl.
      rewrite Hsd. simpl. destruct (ts_parse_total sd) as [dt ->]. simpl.
      unfold weather_find. simpl. by rewrite Hfeatures.
Qed.

End Temperature.

(** ** Further properties of the merge tool *)

Section MergeMore.
Variable py_repr : value → string.
Import UpdateLeaderboard.

Notation make_composite_key := (make_composite_key py_repr).
Notation composite_vals := (composite_vals py_repr).
Notation merge_entries := (merge_entries py_repr).
Notation merge_file := (merge_file py_repr).
Notation merge_files := (merge_files py_repr).
Notation main := (main py_repr).
Notation composite_key := (composite_key py_repr).
Notation store_all := (store_all py_repr).
Notation last_with_key := (last_with_key py_repr).
Notation keys_of := (keys_of py_repr).
Notation str := (str py_repr).

Lemma composite_vals_dict (e : gmap string value) keys vals :
  composite_vals (VDict e) keys vals =
    Ok (vals ++ ((λ k, str (default (VStr "") (e !! k))) <$> keys)).
Proof.
  revert vals. induction keys as [|k keys IH]; intros vals; simpl.
  - by rewrite app_nil_r.
  - destruct (e !! k); simpl; by rewrite IH, <- app_assoc.
Qed.

(** X9: for any list of key names, [make_composite_key] on a
    dictionary is the '+'-join of the string forms of the named fields, a
    missing field counting as the empty string; on anything else it
    raises AttributeError, unless the list of names is empty, when it
    returns the empty string. *)
Theorem make_composite_key_any_keys (v : value) (keys : list string) :
  (∀ e, v = VDict e →
     make_composite_key v keys =
       Ok (join "+" ((λ k, str (default (VStr "") (e !! k))) <$> keys)))
  ∧ ((∀ e, v ≠ VDict e) →
     make_composite_key v keys =
       match keys with [] => Ok "" | _ :: _ => Raise AttributeError end).
Proof.
  split.
  - intros e ->. unfold UpdateLeaderboard.make_composite_key.
    by rewrite composite_vals_dict.
  - intros Hv. destruct keys as [|k keys]; [done|].
    destruct v; try done. by destruct (Hv m).
Qed.

Lemma composite_key_fields (e1 e2 : gmap string value) :
  str (field e1 "start_date") = str (field e2 "start_date") →
  str (field e1 "athlete_name") = str (field e2 "athlete_name") →
  str (field e1 "rank") = str (field e2 "rank") →
  composite_key e1 = composite_key e2.
Proof. unfold Notions.composite_key. by intros -> -> ->. Qed.

(** X10: composite keys collide: a '+' can move between [start_date]
    and [athlete_name], a missing [rank] counts as an empty one, and an
    integer [rank] as its decimal text; of two entries with the same
    composite key merged in turn only the second is stored. *)
Theorem composite_key_collisions (e : gmap string value) :
  (∀ a b c : string,
     composite_key (<["start_date" := VStr (a +:+ "+" +:+ b)]>
                      (<["athlete_name" := VStr c]> e))
     = composite_key (<["start_date" := VStr a]>
                        (<["athlete_name" := VStr (b +:+ "+" +:+ c)]> e)))
  ∧ composite_key (delete "rank" e) = composite_key (<["rank" := VStr ""]> e)
  ∧ (∀ z : Z, composite_key (<["rank" := VInt z]> e)
              = composite_key (<["rank" := VStr (pretty z)]> e))
  ∧ (∀ (E : gmap string value) (e1 e2 : gmap string value),
       composite_key e1 = composite_key e2 →
       merge_entries (VDict E) [VDict e1; VDict e2]
       = Ok (VDict (<[composite_key e2 := VDict e2]> E))).
Proof.
  split_and!.
  - intros a b c. unfold Notions.composite_key, field.
    rewrite !lookup_insert_eq.
    rewrite !(lookup_insert_ne _ "start_date") by done.
    rewrite !lookup_insert_eq. rewrite !lookup_insert_ne by done. simpl.
    by rewrite !string_app_assoc.
  - apply composite_key_fields; unfold field.
    + by rewrite lookup_delete_ne, lookup_insert_ne.
    + by rewrite lookup_delete_ne, lookup_insert_ne.
    + by rewrite lookup_delete_eq, lookup_insert_eq.
  - intros z. apply composite_key_fields; unfold field.
    + by rewrite !lookup_insert_ne.
    + by rewrite !lookup_insert_ne.
    + by rewrite !lookup_insert_eq.
  - intros E e1 e2 Hkey.
    change [VDict e1; VDict e2] with (VDict <$> [e1; e2]).
    rewrite (merge_entries_dicts py_repr E [e1; e2]). simpl.
    by rewrite Hkey, insert_insert_eq.
Qed.

Lemma size_list_to_set_le (l : list string) :
  size (list_to_set l : gset string) ≤ length l.
Proof.
  induction l as [|x l IH].
  { change (size (∅ : gset string) ≤ 0). by rewrite size_empty. }
  change (size ({[x]} ∪ list_to_set l : gset string) ≤ S (length l)).
  rewrite size_union_alt, size_singleton.
  assert (size (list_to_set l ∖ {[x]} : gset string) ≤ size (list_to_set l : gset string))
    by (apply subseteq_size; set_solver).
  lia.
Qed.

Lemma store_all_dom (E : gmap string value) (ds : list (gmap string value)) :
  dom (store_all E ds) = dom E ∪ list_to_set (keys_of ds).
Proof.
  revert E. induction ds as [|e ds IH]; intros E; simpl.
  - set_solver.
  - unfold Notions.store_all in *. simpl. rewrite IH, dom_insert_L.
    unfold Further.keys_of. set_solver.
Qed.

(** X11: merging never removes a record: the keys of the merged
    mapping are those of the existing mapping together with the composite
    keys of the entries, so its size is between the existing size and that
    size plus the number of entries. *)
Theorem merge_never_removes (E : gmap string value)
    (ds : list (gmap string value)) :
  ∃ E', merge_entries (VDict E) (VDict <$> ds) = Ok (VDict E')
    ∧ dom E' = dom E ∪ list_to_set (keys_of ds)
    ∧ (∀ k, is_Some (E !! k) → is_Some (E' !! k))
    ∧ size E ≤ size E' ≤ size E + length ds.
Proof.
  exists (store_all E ds). split; [apply merge_entries_dicts|].
  split; [apply store_all_dom|]. split.
  - intros k Hk%elem_of_dom. apply elem_of_dom. rewrite store_all_dom.
    set_solver.
  - rewrite <- !size_dom, store_all_dom, size_union_alt. split; [lia|].
    assert (size (list_to_set (keys_of ds) ∖ dom E : gset string)
            ≤ length ds); [|lia].
    etrans; [apply subseteq_size, subseteq_difference_l; reflexivity|].
    etrans; [apply size_list_to_set_le|].
    unfold Further.keys_of. by rewrite length_fmap.
Qed.

Lemma last_with_key_app (k : string) (l1 l2 : list (gmap string value)) :
  last_with_key k (l1 ++ l2) =
    match last_with_key k l2 with
    | Some e => Some e
    | None => last_with_key k l1
    end.
Proof. unfold Notions.last_with_key. by rewrite filter_app, last_app. Qed.

Lemma last_with_key_Some (k : string) (l : list (gmap string value)) e :
  last_with_key k l = Some e → e ∈ l ∧ composite_key e = k.
Proof.
  unfold Notions.last_with_key.
  intros [? ?]%last_Some_elem_of%list_elem_of_filter. done.
Qed.

(** X12: two batch files whose entries share no composite key can be
    merged in either order, with the same result. *)
Theorem disjoint_batches_commute (fs : filesystem) (f1 f2 : string)
    (b1 b2 : list (gmap string value)) (E : gmap string value) :
  holds_batch fs f1 b1 → holds_batch fs f2 b2 →
  (∀ e1 e2, e1 ∈ b1 → e2 ∈ b2 → composite_key e1 ≠ composite_key e2) →
  merge_files fs (VDict E) [f1; f2] = merge_files fs (VDict E) [f2; f1].
Proof.
  intros H1 H2 Hdisjoint.
  rewrite (merge_files_batches py_repr fs E [f1; f2] [b1; b2])
    by (repeat constructor; done).
  rewrite (merge_files_batches py_repr fs E [f2; f1] [b2; b1])
    by (repeat constructor; done).
  do 2 f_equal. apply map_eq. intros k. simpl. rewrite !app_nil_r.
  rewrite !store_all_lookup, !last_with_key_app.
  destruct (last_with_key k b1) as [e1|] eqn:Hk1;
    destruct (last_with_key k b2) as [e2|] eqn:Hk2; try done.
  apply last_with_key_Some in Hk1 as [Hin1 Hkey1].
  apply last_with_key_Some in Hk2 as [Hin2 Hkey2].
  destruct (Hdisjoint e1 e2 Hin1 Hin2). congruence.
Qed.

Lemma main_commits fs argv tmpname partial data :
  fs !! tmpname = None →
  merge_files fs (load_existing fs) argv = Ok data →
  main fs argv tmpname partial =
    mk_run (fs :: ((λ c, <[tmpname := c]> fs) <$> partial)
               ++ [<[tmpname := Json data]> fs;
                   <[leaderboard_file := Json data]> fs])
           (Ok ()).
Proof.
  intros Htmp Hmerge. unfold UpdateLeaderboard.main. rewrite Hmerge.
  by rewrite delete_insert_id.
Qed.

Lemma main_final_Ok fs argv tmpname partial data :
  fs !! tmpname = None →
  merge_files fs (load_existing fs) argv = Ok data →
  outcome (main fs argv tmpname partial) = Ok ()
  ∧ final (main fs argv tmpname partial)
    = Some (<[leaderboard_file := Json data]> fs).
Proof.
  intros Htmp Hmerge. rewrite (main_commits _ _ _ _ _ Htmp Hmerge).
  split; [done|]. unfold final. simpl.
  by rewrite app_comm_cons, last_app.
Qed.

Lemma main_Ok_inv fs argv tmpname partial :
  outcome (main fs argv tmpname partial) = Ok () →
  ∃ data, merge_files fs (load_existing fs) argv = Ok data.
Proof.
  unfold UpdateLeaderboard.main.
  destruct (merge_files fs (load_existing fs) argv) as [data|e]; [eauto|done].
Qed.

(** X13: a run that ends without error, its temporary name being
    unused before, leaves the merged data in the leaderboard file, no
    temporary file, and every other file as it was. *)
Theorem successful_run_changes_one_file (fs : filesystem) (argv : list string)
    (tmpname : string) (partial : list contents) :
  fs !! tmpname = None →
  outcome (main fs argv tmpname partial) = Ok () →
  ∃ data after,
    merge_files fs (load_existing fs) argv = Ok data
    ∧ final (main fs argv tmpname partial) = Some after
    ∧ after !! leaderboard_file = Some (Json data)
    ∧ after !! tmpname = (if decide (tmpname = leaderboard_file)
                          then Some (Json data) else None)
    ∧ ∀ f, f ≠ leaderboard_file → after !! f = fs !! f.
Proof.
  intros Htmp [data Hmerge]%main_Ok_inv.
  destruct (main_final_Ok fs argv tmpname partial data Htmp Hmerge) as [_ Hfinal].
  exists data, (<[leaderboard_file := Json data]> fs). split_and!; [done..| | |].
  - apply lookup_insert_eq.
  - case_decide as Heq.
    + rewrite Heq. apply lookup_insert_eq.
    + by rewrite lookup_insert_ne.
  - intros f Hf. by rewrite lookup_insert_ne.
Qed.

(** X14: when the leaderboard file is missing or is not valid JSON,
    a run over well-formed batches succeeds from the empty mapping: the
    file it leaves holds, under each key, the last batch entry with that
    composite key, and nothing else. *)
Theorem unreadable_leaderboard_starts_empty (fs : filesystem)
    (argv : list string) (batches : list (list (gmap string value)))
    (tmpname : string) (partial : list contents) :
  fs !! leaderboard_file = None ∨ fs !! leaderboard_file = Some NotJson →
  fs !! tmpname = None →
  Forall2 (holds_batch fs) argv batches →
  ∃ after E',
    outcome (main fs argv tmpname partial) = Ok ()
    ∧ final (main fs argv tmpname partial) = Some after
    ∧ after !! leaderboard_file = Some (Json (VDict E'))
    ∧ ∀ k, E' !! k = VDict <$> last_with_key k (concat batches).
Proof.
  intros Hold Htmp Hbatches.
  assert (load_existing fs = VDict ∅) as Hload.
  { unfold UpdateLeaderboard.load_existing, load_json.
    by destruct Hold as [-> | ->]. }
  pose proof (merge_files_batches py_repr fs ∅ argv batches Hbatches) as Hmerge.
  rewrite <- Hload in Hmerge at 1.
  destruct (main_final_Ok fs argv tmpname partial _ Htmp Hmerge) as [Hout Hfinal].
  eexists _, _. split_and!; [done..|apply lookup_insert_eq|].
  intros k. rewrite store_all_lookup, lookup_empty.
  by destruct (last_with_key k (concat batches)).
Qed.

(** X15: when the leaderboard file holds JSON that is not an object
    and the first batch file yields an entry, the run fails with a
    TypeError and writes nothing. *)
Theorem leaderboard_not_an_object (fs : filesystem) (v : value)
    (f : string) (rest : list string) (e : gmap string value)
    (l : list value) (tmpname : string) (partial : list contents) :
  fs !! leaderboard_file = Some (Json v) →
  (∀ m, v ≠ VDict m) →
  file_entries fs f = Ok (VDict e :: l) →
  main fs (f :: rest) tmpname partial = mk_run [fs] (Raise TypeError).
Proof.
  intros Hold Hv Hf. unfold UpdateLeaderboard.main.
  assert (load_existing fs = v) as ->.
  { unfold UpdateLeaderboard.load_existing, load_json. by rewrite Hold. }
  assert (merge_files fs v (f :: rest) = Raise TypeError) as ->; [|done].
  cbn [UpdateLeaderboard.merge_files]. unfold UpdateLeaderboard.merge_file.
  unfold file_entries in Hf.
  destruct (load_json fs f) as [d|]; [simpl in *|done].
  destruct (getitem d "entries") as [es|]; [simpl in *|done].
  rewrite Hf. simpl. rewrite make_composite_key_dict. simpl.
  destruct v; try done. by destruct (Hv m).
Qed.

Lemma merge_file_entries fs data f :
  merge_file fs data f = file_entries fs f ≫= merge_entries data.
Proof.
  unfold UpdateLeaderboard.merge_file, file_entries.
  destruct (load_json fs f) as [d|]; [simpl|done].
  by destruct (getitem d "entries").
Qed.

Lemma merge_entries_app data (l1 l2 : list value) :
  merge_entries data (l1 ++ l2) =
    merge_entries data l1 ≫= λ data', merge_entries data' l2.
Proof.
  revert data. induction l1 as [|v l1 IH]; intros data; [done|]. simpl.
  destruct (make_composite_key v unique_key_fields) as [k|]; [simpl|done].
  destruct (setitem data k v) as [data'|]; [simpl|done]. apply IH.
Qed.

Lemma merge_files_Ok_entries fs data data' argv :
  merge_files fs data argv = Ok data' →
  ∃ l, all_entries fs argv = Ok l ∧ merge_entries data l = Ok data'.
Proof.
  revert data. induction argv as [|f argv IH]; intros data; simpl.
  - intros [= ->]. by exists [].
  - rewrite merge_file_entries.
    intros (d1 & (l1 & Hl1 & Hd1)%bind_Ok_inv & Hrest)%bind_Ok_inv.
    apply IH in Hrest as (ls & Hls & Hrest).
    exists (l1 ++ ls). rewrite Hl1, Hls. split; [done|].
    by rewrite merge_entries_app, Hd1.
Qed.

Lemma merge_files_of_entries fs data data' argv l :
  all_entries fs argv = Ok l → merge_entries data l = Ok data' →
  merge_files fs data argv = Ok data'.
Proof.
  revert data l. induction argv as [|f argv IH]; intros data l; simpl.
  - by intros [= <-] ?.
  - rewrite merge_file_entries.
    intros (l1 & Hl1 & (ls & Hls & [= <-])%bind_Ok_inv)%bind_Ok_inv Hm.
    rewrite merge_entries_app in Hm.
    apply bind_Ok_inv in Hm as (d1 & Hd1 & Hrest).
    rewrite Hl1. simpl. rewrite Hd1. simpl. by eapply IH.
Qed.

(** X16: the merge loop over several files succeeds exactly when every
    file yields its entries and merging all of them, in order, as one
    batch succeeds, and with the same result. *)
Theorem merge_files_as_one_batch (fs : filesystem) (data data' : value)
    (argv : list string) :
  merge_files fs data argv = Ok data' ↔
  ∃ l, all_entries fs argv = Ok l ∧ merge_entries data l = Ok data'.
Proof.
  split.
  - apply merge_files_Ok_entries.
  - intros (l & Hl & Hm). by eapply merge_files_of_entries.
Qed.

Lemma merge_files_twice fs data data' argv :
  merge_files fs data argv = Ok data' → merge_files fs data' argv = Ok data'.
Proof.
  intros (l & Hl & Hm)%merge_files_Ok_entries.
  apply (merge_files_of_entries _ _ _ _ l); [done|].
  pose proof (merge_entries_twice py_repr data l) as Htwice.
  by rewrite Hm in Htwice.
Qed.

Lemma merge_files_agree fs1 fs2 data argv :
  (∀ f, f ∈ argv → fs1 !! f = fs2 !! f) →
  merge_files fs1 data argv = merge_files fs2 data argv.
Proof.
  revert data. induction argv as [|f argv IH]; intros data Hagree; [done|].
  simpl. unfold UpdateLeaderboard.merge_file, load_json.
  rewrite (Hagree f) by left.
  destruct (fs2 !! f) as [[d|]|]; simpl; try done.
  destruct (getitem d "entries") as [es|]; simpl; [|done].
  destruct (iter es) as [l|]; simpl; [|done].
  destruct (UpdateLeaderboard.merge_entries py_repr data l); simpl; [|done].
  apply IH. intros f' ?. apply Hagree. by right.
Qed.

Lemma load_existing_committed fs data :
  load_existing (<[leaderboard_file := Json data]> fs) = data.
Proof.
  unfold UpdateLeaderboard.load_existing, load_json.
  by rewrite lookup_insert_eq.
Qed.

(** X17: running the tool again on the same batch files, which do
    not include the leaderboard file, succeeds and leaves the file system
    as the first run left it. *)
Theorem rerun_changes_nothing (fs after : filesystem) (argv : list string)
    (tmpname tmpname' : string) (partial partial' : list contents) :
  fs !! tmpname = None →
  leaderboard_file ∉ argv →
  outcome (main fs argv tmpname partial) = Ok () →
  final (main fs argv tmpname partial) = Some after →
  after !! tmpname' = None →
  outcome (main after argv tmpname' partial') = Ok ()
  ∧ final (main after argv tmpname' partial') = Some after.
Proof.
  intros Htmp Hnotin [data Hmerge]%main_Ok_inv Hfinal Htmp'.
  destruct (main_final_Ok fs argv tmpname partial data Htmp Hmerge) as [_ Hf].
  rewrite Hf in Hfinal. injection Hfinal as <-.
  assert (merge_files (<[leaderboard_file := Json data]> fs)
            (load_existing (<[leaderboard_file := Json data]> fs)) argv
          = Ok data) as Hagain.
  { rewrite load_existing_committed.
    rewrite (merge_files_agree _ fs).
    - by apply merge_files_twice in Hmerge.
    - intros f Hin. rewrite lookup_insert_ne; [done|]. by intros <-. }
  destruct (main_final_Ok _ argv tmpname' partial' data Htmp' Hagain)
    as [Hout' Hf'].
  split; [done|]. by rewrite Hf', insert_insert_eq.
Qed.

(** X18: after a successful run on [argv1], a run on [argv2] ends as
    a single run on [argv1 ++ argv2] does, and when that is without error
    both leave the same file system. *)
Theorem runs_in_sequence (fs after : filesystem) (argv1 argv2 : list string)
    (tmp1 tmp2 tmp : string) (partial1 partial2 partial : list contents) :
  fs !! tmp1 = None → fs !! tmp = None →
  leaderboard_file ∉ argv2 →
  outcome (main fs argv1 tmp1 partial1) = Ok () →
  final (main fs argv1 tmp1 partial1) = Some after →
  after !! tmp2 = None →
  outcome (main after argv2 tmp2 partial2)
  = outcome (main fs (argv1 ++ argv2) tmp partial)
  ∧ (outcome (main after argv2 tmp2 partial2) = Ok () →
     final (main after argv2 tmp2 partial2)
     = final (main fs (argv1 ++ argv2) tmp partial)).
Proof.
  intros Htmp1 Htmp Hnotin [data1 Hmerge1]%main_Ok_inv Hfinal Htmp2.
  destruct (main_final_Ok fs argv1 tmp1 partial1 data1 Htmp1 Hmerge1) as [_ Hf].
  rewrite Hf in Hfinal. injection Hfinal as <-.
  assert (merge_files (<[leaderboard_file := Json data1]> fs)
            (load_existing (<[leaderboard_file := Json data1]> fs)) argv2
          = merge_files fs (load_existing fs) (argv1 ++ argv2)) as Hsame.
  { rewrite load_existing_committed, merge_files_app, Hmerge1. simpl.
    apply merge_files_agree. intros f Hin.
    rewrite lookup_insert_ne; [done|]. by intros <-. }
  destruct (merge_files fs (load_existing fs) (argv1 ++ argv2))
    as [data2|e] eqn:Hmerge.
  - destruct (main_final_Ok _ argv2 tmp2 partial2 data2 Htmp2 Hsame) as [-> ->].
    destruct (main_final_Ok fs (argv1 ++ argv2) tmp partial data2 Htmp Hmerge)
      as [-> ->].
    split; [done|]. intros _. by rewrite insert_insert_eq.
  - unfold UpdateLeaderboard.main. rewrite Hsame, Hmerge. simpl.
    split; [done|]. done.
Qed.
End MergeMore.

(** ** The further properties on the sample data *)

Lemma ts_parse_not_text_sample : ts_parse (VInt 20240101) = Ok None.
Proof. apply (ts_parse_not_text (VInt 20240101)). intros s. discriminate. Defined.

Lemma leaders_timerange_skips_nothing_sample :
  is_Some (start_date (VDict Samples.alice)).
Proof.
  apply (leaders_timerange_skips_nothing Samples.served
           "2023-12-31T00:00:00Z" "2024-01-02T00:00:00Z" Samples.leaderboard
           (VList [VDict Samples.alice]))
    with (k := "2024-01-01T00:00:00Z+alice+1");
    vm_compute; reflexivity.
Defined.

Lemma leaders_timerange_widening_sample :
  ∃ narrow wide,
    leaders_timerange Samples.served
      "2024-01-01T00:00:00" "2024-01-01T00:00:00" = Ok (VList narrow)
    ∧ leaders_timerange Samples.served
        "2023-12-31T00:00:00Z" "2024-01-02T00:00:00Z" = Ok (VList wide)
    ∧ narrow `sublist_of` wide.
Proof.
  apply (leaders_timerange_widening Samples.served
           "2024-01-01T00:00:00" "2024-01-01T00:00:00"
           "2023-12-31T00:00:00Z" "2024-01-02T00:00:00Z"
           (mk_datetime 2024 1 1 0 0 0) (mk_datetime 2024 1 1 0 0 0)
           (mk_datetime 2023 12 31 0 0 0) (mk_datetime 2024 1 2 0 0 0)
           Samples.leaderboard).
  - vm_compute. reflexivity.
  - vm_compute. reflexivity.
  - vm_compute. reflexivity.
  - vm_compute. reflexivity.
  - vm_compute. reflexivity.
  - vm_compute. reflexivity.
  - vm_compute. reflexivity.
  - vm_compute. reflexivity.
  - unfold Samples.leaderboard. intros k r [_ <-]%lookup_singleton_Some.
    vm_compute. eauto.
Defined.

Lemma weather_find_any_order_sample :
  weather_find (Some MoreSamples.ten_past_eleven) (VDict Samples.weather)
  = weather_find (Some MoreSamples.ten_past_eleven)
      (VDict MoreSamples.weather_reversed).
Proof.
  apply (weather_find_any_order MoreSamples.ten_past_eleven Samples.weather
           MoreSamples.weather_reversed Samples.three_observations
           (reverse Samples.three_observations)).
  - reflexivity.
  - reflexivity.
  - symmetry. apply reverse_Permutation.
  - repeat constructor; vm_compute; eauto.
  - apply (bool_decide_unpack _). vm_compute. exact I.
Defined.

Lemma leaders_temprange_selection_sample :
  ∃ t1 t2 W keys records,
    MoreSamples.float_of "-inf" = Some t1 ∧ MoreSamples.float_of "inf" = Some t2
    ∧ MoreSamples.served !! weather_file = Some (Json W)
    ∧ VList [VDict Samples.alice] = VList records
    ∧ Forall2 (λ k r, Samples.leaderboard !! k = Some r) keys records
    ∧ StronglySorted String.le keys ∧ NoDup keys
    ∧ ∀ k, is_Some (Samples.leaderboard !! k) →
        keeps MoreSamples.int_against (VDict Samples.leaderboard) W t1 t2 k
        = Ok (bool_decide (k ∈ keys)).
Proof.
  apply (leaders_temprange_selection MoreSamples.float_of
           MoreSamples.int_against MoreSamples.served "-inf" "inf"
           Samples.leaderboard (VList [VDict Samples.alice]));
    vm_compute; reflexivity.
Defined.

Example leaders_temprange_no_weather :
  TempRange.leaders_temprange MoreSamples.float_of MoreSamples.int_against
    MoreSamples.served_no_weather "-inf" "inf" = Raise TypeError
  ∧ TempRange.leaders_temprange MoreSamples.float_of MoreSamples.int_against
      MoreSamples.served "0" "inf" = Ok (VList [VDict Samples.alice])
  ∧ TempRange.leaders_temprange MoreSamples.float_of MoreSamples.int_against
      MoreSamples.served "-inf" "0" = Ok (VList [])
  ∧ TempRange.leaders_temprange MoreSamples.float_of MoreSamples.int_against
      MoreSamples.served "inf" "0"
    = Raise (InvalidUsage "First temp must be less than or equal to second" 400).
Proof. vm_compute. auto. Qed.

Lemma disjoint_batches_commute_sample :
  UpdateLeaderboard.merge_files (λ _, "") MoreSamples.two_batches
    (VDict Samples.leaderboard) ["a.json"; "b.json"]
  = UpdateLeaderboard.merge_files (λ _, "") MoreSamples.two_batches
      (VDict Samples.leaderboard) ["b.json"; "a.json"].
Proof.
  apply (disjoint_batches_commute (λ _, "") MoreSamples.two_batches
           "a.json" "b.json" [Samples.alice_again] [Samples.bob]).
  - exists {[ "entries" := VList (VDict <$> [Samples.alice_again]) ]}.
    split; vm_compute; reflexivity.
  - exists {[ "entries" := VList (VDict <$> [Samples.bob]) ]}.
    split; vm_compute; reflexivity.
  - intros e1 e2 ->%list_elem_of_singleton ->%list_elem_of_singleton.
    vm_compute. discriminate.
Defined.

Lemma successful_run_changes_one_file_sample :
  ∃ data after,
    UpdateLeaderboard.merge_files (λ _, "") MoreSamples.first_run
      (UpdateLeaderboard.load_existing MoreSamples.first_run) ["new.json"]
    = Ok data
    ∧ final (UpdateLeaderboard.main (λ _, "") MoreSamples.first_run
               ["new.json"] "tmpab12cd34" []) = Some after
    ∧ after !! UpdateLeaderboard.leaderboard_file = Some (Json data)
    ∧ after !! "tmpab12cd34"
      = (if decide ("tmpab12cd34" = UpdateLeaderboard.leaderboard_file)
         then Some (Json data) else None)
    ∧ ∀ f, f ≠ UpdateLeaderboard.leaderboard_file →
        after !! f = MoreSamples.first_run !! f.
Proof.
  apply (successful_run_changes_one_file (λ _, "") MoreSamples.first_run
           ["new.json"] "tmpab12cd34" []); vm_compute; reflexivity.
Defined.

Lemma unreadable_leaderboard_starts_empty_sample :
  ∃ after E',
    UpdateLeaderboard.outcome
      (UpdateLeaderboard.main (λ _, "") MoreSamples.first_run
         ["new.json"] "tmpab12cd34" []) = Ok ()
    ∧ final (UpdateLeaderboard.main (λ _, "") MoreSamples.first_run
               ["new.json"] "tmpab12cd34" []) = Some after
    ∧ after !! UpdateLeaderboard.leaderboard_file = Some (Json (VDict E'))
    ∧ ∀ k, E' !! k
        = VDict <$> last_with_key (λ _, "") k
                      (concat [[Samples.alice_again; Samples.bob]]).
Proof.
  apply (unreadable_leaderboard_starts_empty (λ _, "") MoreSamples.first_run
           ["new.json"] [[Samples.alice_again; Samples.bob]] "tmpab12cd34" []).
  - left. vm_compute. reflexivity.
  - vm_compute. reflexivity.
  - repeat constructor.
    exists {[ "entries" := VList (VDict <$> [Samples.alice_again; Samples.bob]) ]}.
    split; vm_compute; reflexivity.
Defined.

Lemma leaderboard_not_an_object_sample :
  UpdateLeaderboard.main (λ _, "") MoreSamples.list_on_disk
    ("new.json" :: []) "tmpab12cd34" []
  = UpdateLeaderboard.mk_run [MoreSamples.list_on_disk] (Raise TypeError).
Proof.
  apply (leaderboard_not_an_object (λ _, "") MoreSamples.list_on_disk
           (VList []) "new.json" [] Samples.alice_again [VDict Samples.bob]).
  - vm_compute. reflexivity.
  - intros m. discriminate.
  - vm_compute. reflexivity.
Defined.

Lemma rerun_changes_nothing_sample :
  UpdateLeaderboard.outcome
    (UpdateLeaderboard.main (λ _, "")
       (<["leaderboard.json" := Json (VDict MoreSamples.merged)]>
          MoreSamples.first_run)
       ["new.json"] "tmpzz99yy88" []) = Ok ()
  ∧ final
      (UpdateLeaderboard.main (λ _, "")
         (<["leaderboard.json" := Json (VDict MoreSamples.merged)]>
            MoreSamples.first_run)
         ["new.json"] "tmpzz99yy88" [])
    = Some (<["leaderboard.json" := Json (VDict MoreSamples.merged)]>
              MoreSamples.first_run).
Proof.
  apply (rerun_changes_nothing (λ _, "") MoreSamples.first_run
           (<["leaderboard.json" := Json (VDict MoreSamples.merged)]>
              MoreSamples.first_run)
           ["new.json"] "tmpab12cd34" "tmpzz99yy88" [] []).
  - vm_compute. reflexivity.
  - apply not_elem_of_cons. split; [discriminate | apply not_elem_of_nil].
  - vm_compute. reflexivity.
  - vm_compute. reflexivity.
  - vm_compute. reflexivity.
Defined.

Lemma runs_in_sequence_sample :
  UpdateLeaderboard.outcome
    (UpdateLeaderboard.main (λ _, "")
       (<["leaderboard.json" :=
            Json (VDict {[ "2024-01-01T00:00:00Z+alice+1" :=
                             VDict Samples.alice_again ]})]>
          MoreSamples.two_batches)
       ["b.json"] "tmpzz99yy88" [])
  = UpdateLeaderboard.outcome
      (UpdateLeaderboard.main (λ _, "") MoreSamples.two_batches
         (["a.json"] ++ ["b.json"]) "tmpqq11ww22" [])
  ∧ (UpdateLeaderboard.outcome
       (UpdateLeaderboard.main (λ _, "")
          (<["leaderboard.json" :=
               Json (VDict {[ "2024-01-01T00:00:00Z+alice+1" :=
                                VDict Samples.alice_again ]})]>
             MoreSamples.two_batches)
          ["b.json"] "tmpzz99yy88" []) = Ok () →
     final
       (UpdateLeaderboard.main (λ _, "")
          (<["leaderboard.json" :=
               Json (VDict {[ "2024-01-01T00:00:00Z+alice+1" :=
                                VDict Samples.alice_again ]})]>
             MoreSamples.two_batches)
          ["b.json"] "tmpzz99yy88" [])
     = final
         (UpdateLeaderboard.main (λ _, "") MoreSamples.two_batches
            (["a.json"] ++ ["b.json"]) "tmpqq11ww22" [])).
Proof.
  apply (runs_in_sequence (λ _, "") MoreSamples.two_batches
           (<["leaderboard.json" :=
                Json (VDict {[ "2024-01-01T00:00:00Z+alice+1" :=
                                 VDict Samples.alice_again ]})]>
              MoreSamples.two_batches)
           ["a.json"] ["b.json"] "tmpab12cd34" "tmpzz99yy88" "tmpqq11ww22"
           [] [] []).
  - vm_compute. reflexivity.
  - vm_compute. reflexivity.
  - apply not_elem_of_cons. split; [discriminate | apply not_elem_of_nil].
  - vm_compute. reflexivity.
  - vm_compute. reflexivity.
  - vm_compute. reflexivity.
Defined.
